(** * game-audio plugin: the read-only search and inspection tools

    A shallow embedding of [extensions/game-audio/src/audio-tools.ts] and the
    properties of it that the specification states.

    Conventions of the embedding.
    - A JavaScript string is a [string]; its characters stand for the code
      units 0..255.
    - A JavaScript number is a [number]: a rational, an infinity or NaN.
    - The file system, the regular-expression engine and the UTF-8 decoder
      are the host's; they are the fields of a [Runtime] record that every
      operation takes as its first argument.
    - A thrown error is a value of [Result]; a loop whose length depends on
      the file system takes a bound on its number of steps. *)

From Stdlib Require Import List String Ascii Bool Arith ZArith QArith Qround Lia Permutation.
Import ListNotations.
Local Open Scope string_scope.
Local Open Scope list_scope.
Local Open Scope nat_scope.

(** ** JavaScript strings *)

Module JS.

Definition empty : string := EmptyString.

Definition isEmpty (s : string) : bool :=
  match s with EmptyString => true | String _ _ => false end.

Definition charCode (c : ascii) : nat := nat_of_ascii c.

(** [s.startsWith(p)] *)
Definition startsWith (s p : string) : bool := String.prefix p s.

(** [s.includes(p)] *)
Fixpoint includes (s p : string) : bool :=
  String.prefix p s ||
  match s with
  | EmptyString => false
  | String _ s' => includes s' p
  end.

(** White space and line terminators of ECMAScript among the code units
    0..255: TAB, LF, VT, FF, CR, SP and NBSP. *)
Definition isWhiteSpace (c : ascii) : bool :=
  let n := charCode c in
  (n =? 9) || (n =? 10) || (n =? 11) || (n =? 12) || (n =? 13) || (n =? 32)
  || (n =? 160).

Fixpoint trimStart (s : string) : string :=
  match s with
  | EmptyString => EmptyString
  | String c s' => if isWhiteSpace c then trimStart s' else s
  end.

Fixpoint trimEnd (s : string) : string :=
  match s with
  | EmptyString => EmptyString
  | String c s' =>
      let t := trimEnd s' in
      if isWhiteSpace c && isEmpty t then EmptyString else String c t
  end.

(** [s.trim()] *)
Definition trim (s : string) : string := trimEnd (trimStart s).

(** [toLowerCase] on one code unit: A-Z and the upper-case letters of
    Latin-1 (all of 0xC0..0xDE but the multiplication sign 0xD7). *)
Definition lowerChar (c : ascii) : ascii :=
  let n := charCode c in
  if ((65 <=? n) && (n <=? 90))
     || ((192 <=? n) && (n <=? 222) && negb (n =? 215))
  then ascii_of_nat (n + 32)
  else c.

Fixpoint toLowerCase (s : string) : string :=
  match s with
  | EmptyString => EmptyString
  | String c s' => String (lowerChar c) (toLowerCase s')
  end.

(** [s.slice(0, n)] *)
Definition slice0 (n : nat) (s : string) : string := String.substring 0 n s.

(** [s.replaceAll(pat, rep)] for a pattern that is not empty: the
    occurrences are taken from left to right and do not overlap. [skip]
    counts the characters of a replaced occurrence still to pass over. *)
Fixpoint replaceAllFrom (pat rep : string) (skip : nat) (s : string) : string :=
  match s with
  | EmptyString => EmptyString
  | String c s' =>
      match skip with
      | S k => replaceAllFrom pat rep k s'
      | O =>
          if String.prefix pat s
          then (rep ++ replaceAllFrom pat rep (String.length pat - 1) s')%string
          else String c (replaceAllFrom pat rep 0 s')
      end
  end.

Definition replaceAll (s pat rep : string) : string :=
  replaceAllFrom pat rep 0 s.

Definition LF : ascii := ascii_of_nat 10.
Definition CR : ascii := ascii_of_nat 13.

Definition consLine (c : ascii) (ls : list string) : list string :=
  match ls with
  | l :: rest => String c l :: rest
  | [] => [String c EmptyString]
  end.

(** [s.split(/\r?\n/)]: a line ends at LF or at CR LF; a CR that no LF
    follows is a character of its line. *)
Fixpoint splitLines (s : string) : list string :=
  match s with
  | EmptyString => [EmptyString]
  | String c s' =>
      if Ascii.eqb c LF then EmptyString :: splitLines s'
      else
        match s' with
        | String c' s'' =>
            if Ascii.eqb c CR && Ascii.eqb c' LF
            then EmptyString :: splitLines s''
            else consLine c (splitLines s')
        | EmptyString => consLine c (splitLines s')
        end
  end.

(** [s.split(sep)] for a one-character separator. *)
Fixpoint splitOn (sep : ascii) (s : string) : list string :=
  match s with
  | EmptyString => [EmptyString]
  | String c s' =>
      if Ascii.eqb c sep then EmptyString :: splitOn sep s'
      else consLine c (splitOn sep s')
  end.

(** [l.includes(x)] on an array of strings. *)
Definition arrayIncludes (l : list string) (x : string) : bool :=
  existsb (String.eqb x) l.

(** The declarative reading of [includes]: [p] occurs in [s]. *)
Definition Substring (p s : string) : Prop :=
  exists a b : string, s = (a ++ p ++ b)%string.

End JS.

(** ** JavaScript numbers *)

Inductive number : Type :=
| Finite (q : Q)
| PosInfinity
| NegInfinity
| NaN.

Module Num.

Definition ofNat (n : nat) : Q := inject_Z (Z.of_nat n).

(** [x > 0] *)
Definition gtZero (x : number) : bool :=
  match x with
  | Finite q => negb (Qle_bool q 0)
  | PosInfinity => true
  | NegInfinity | NaN => false
  end.

(** [n >= x] for an array length or a file size [n] *)
Definition natGe (n : nat) (x : number) : bool :=
  match x with
  | Finite q => Qle_bool q (ofNat n)
  | NegInfinity => true
  | PosInfinity | NaN => false
  end.

(** [n > x] *)
Definition natGt (n : nat) (x : number) : bool :=
  match x with
  | Finite q => negb (Qle_bool (ofNat n) q)
  | NegInfinity => true
  | PosInfinity | NaN => false
  end.

(** ToIntegerOrInfinity on a finite number: truncation towards zero. *)
Definition truncate (q : Q) : Z :=
  if Qle_bool 0 q then Qfloor q else Qceiling q.

(** The end index of [buf.subarray(0, x)] for a buffer of [len] bytes: a
    negative index counts from the end, and the result is clamped to
    0..len. *)
Definition subarrayEnd (len : nat) (x : number) : nat :=
  match x with
  | Finite q =>
      let k := truncate q in
      if (k <? 0)%Z then Z.to_nat (Z.of_nat len + k)
      else Nat.min (Z.to_nat k) len
  | PosInfinity => len
  | NegInfinity | NaN => 0
  end.

Definition ofZ (z : Z) : number := Finite (inject_Z z).

End Num.

(** ** Node's [path] module, POSIX flavour *)

Module NodePath.

Definition slash : ascii := ascii_of_nat 47.
Definition dot : ascii := ascii_of_nat 46.

(** [path.sep] *)
Definition sep : string := String slash EmptyString.

Definition dotdot : string := String dot (String dot EmptyString).
Definition onedot : string := String dot EmptyString.

(** [path.isAbsolute(p)] *)
Definition isAbsolute (p : string) : bool :=
  match p with
  | String c _ => Ascii.eqb c slash
  | EmptyString => false
  end.

Fixpoint endsWithSlash (p : string) : bool :=
  match p with
  | EmptyString => false
  | String c EmptyString => Ascii.eqb c slash
  | String _ p' => endsWithSlash p'
  end.

Definition joinSegments (segs : list string) : string := String.concat sep segs.

(** Node's [normalizeString] on the segments of a path: empty segments and
    "." are dropped, ".." removes the segment before it, and a ".." with
    nothing to remove is kept only when [allowAboveRoot]. [acc] holds the
    segments kept so far, the last one first. *)
Fixpoint normalizeSegments (allowAboveRoot : bool) (acc segs : list string)
  : list string :=
  match segs with
  | [] => rev acc
  | seg :: rest =>
      if JS.isEmpty seg || String.eqb seg onedot
      then normalizeSegments allowAboveRoot acc rest
      else if String.eqb seg dotdot then
        match acc with
        | last :: acc' =>
            if String.eqb last dotdot
            then normalizeSegments allowAboveRoot
                   (if allowAboveRoot then dotdot :: acc else acc) rest
            else normalizeSegments allowAboveRoot acc' rest
        | [] =>
            normalizeSegments allowAboveRoot
              (if allowAboveRoot then [dotdot] else []) rest
        end
      else normalizeSegments allowAboveRoot (seg :: acc) rest
  end.

Definition normalizeString (p : string) (allowAboveRoot : bool) : string :=
  joinSegments (normalizeSegments allowAboveRoot [] (JS.splitOn slash p)).

(** [path.normalize(p)] *)
Definition normalize (p : string) : string :=
  if JS.isEmpty p then onedot
  else
    let abs := isAbsolute p in
    let trailing := endsWithSlash p in
    let q := normalizeString p (negb abs) in
    if JS.isEmpty q then
      if abs then sep else if trailing then (onedot ++ sep)%string else onedot
    else
      let q' := if trailing then (q ++ sep)%string else q in
      if abs then (sep ++ q')%string else q'.

(** [path.join(...parts)] *)
Definition join (parts : list string) : string :=
  match filter (fun s => negb (JS.isEmpty s)) parts with
  | [] => onedot
  | ps => normalize (String.concat sep ps)
  end.

(** The loop of [path.resolve] over its arguments, last one first, until
    an absolute one is met. *)
Fixpoint resolveFrom (argsRev : list string) (resolved : string) : string * bool :=
  match argsRev with
  | [] => (resolved, false)
  | a :: rest =>
      if JS.isEmpty a then resolveFrom rest resolved
      else
        let r := (a ++ sep ++ resolved)%string in
        if isAbsolute a then (r, true) else resolveFrom rest r
  end.

(** [path.resolve(...args)] in a process whose working directory is [cwd]. *)
Definition resolve (cwd : string) (args : list string) : string :=
  let '(r, abs) := resolveFrom (rev args) EmptyString in
  let '(r, abs) :=
    if abs then (r, true)
    else if JS.isEmpty cwd then (r, false)
    else ((cwd ++ sep ++ r)%string, isAbsolute cwd) in
  let n := normalizeString r (negb abs) in
  if abs then (sep ++ n)%string
  else if JS.isEmpty n then onedot else n.

Definition segmentsOf (p : string) : list string :=
  filter (fun s => negb (JS.isEmpty s)) (JS.splitOn slash p).

(** What two resolved paths have after their longest common run of
    leading segments. *)
Fixpoint stripCommon (a b : list string) : list string * list string :=
  match a, b with
  | x :: a', y :: b' => if String.eqb x y then stripCommon a' b' else (a, b)
  | _, _ => (a, b)
  end.

(** [path.relative(from, to)] *)
Definition relative (cwd from to : string) : string :=
  if String.eqb from to then EmptyString
  else
    let f := resolve cwd [from] in
    let t := resolve cwd [to] in
    if String.eqb f t then EmptyString
    else
      let '(up, down) := stripCommon (segmentsOf f) (segmentsOf t) in
      joinSegments (map (fun _ => dotdot) up ++ down).

(** The last segment of a path, trailing separators apart. *)
Definition basename (p : string) : string :=
  last (segmentsOf p) EmptyString.

(** The part of [s] from its last "." on, with the index of that "." ;
    [None] when [s] has no ".". *)
Fixpoint lastDot (s : string) : option (nat * string) :=
  match s with
  | EmptyString => None
  | String c s' =>
      match lastDot s' with
      | Some (i, e) => Some (S i, e)
      | None => if Ascii.eqb c dot then Some (0, s) else None
      end
  end.

(** [path.extname(p)]: from the last "." of the base name on; empty when
    the base name has no ".", starts with its only "." or is "..". *)
Definition extname (p : string) : string :=
  let b := basename p in
  if String.eqb b dotdot then EmptyString
  else
    match lastDot b with
    | None => EmptyString
    | Some (O, _) => EmptyString
    | Some (S _, e) => e
    end.

End NodePath.

(** ** The host: file system, process, regular expressions, decoder *)

Inductive EntryType : Type := IsFile | IsDirectory | IsSymbolicLink | IsOther.

(** [fs.Dirent] *)
Module Dirent.
Record t : Type := make { name : string; type : EntryType }.
Definition isSymbolicLink (e : t) : bool :=
  match type e with IsSymbolicLink => true | _ => false end.
Definition isDirectory (e : t) : bool :=
  match type e with IsDirectory => true | _ => false end.
Definition isFile (e : t) : bool :=
  match type e with IsFile => true | _ => false end.
End Dirent.

(** [fs.Stats], as [fs.stat] gives it (it follows symbolic links). *)
Module Stats.
Record t : Type := make { type : EntryType; size : nat }.
Definition isDirectory (s : t) : bool :=
  match type s with IsDirectory => true | _ => false end.
Definition isFile (s : t) : bool :=
  match type s with IsFile => true | _ => false end.
End Stats.

(** [node:fs/promises]: each call either settles with a value or rejects
    ([None], [false] for [access]). *)
Record FileSystem : Type := {
  access : string -> bool;
  readdir : string -> option (list Dirent.t);
  realpath : string -> option string;
  stat : string -> option Stats.t;
  readFile : string -> option (list Byte.byte)
}.

(** A compiled pattern: an attempt to match the string at an index gives
    the index where the match ends. *)
Definition Program : Type := string -> nat -> option nat.

Record Runtime : Type := {
  fs : FileSystem;
  (** [os.homedir()] *)
  homedir : string;
  (** [process.cwd()] *)
  cwd : string;
  (** [new RegExp(source, flags)], the second argument telling whether the
      flags hold "i"; [None] when the constructor throws a SyntaxError. *)
  regexpCompile : string -> bool -> option Program;
  (** [buf.toString("utf8")] *)
  utf8Decode : list Byte.byte -> string
}.

(** A [RegExp] object: the compiled pattern and the mutable [lastIndex]. *)
Module RegExp.
Record t : Type := make { program : Program; global : bool; lastIndex : nat }.

Definition setLastIndex (re : t) (i : nat) : t :=
  make (program re) (global re) i.

(** The loop of RegExpBuiltinExec: the first index from [i] on, among [n]
    of them, where the pattern matches. *)
Fixpoint scan (p : Program) (s : string) (i n : nat) : option nat :=
  match n with
  | O => None
  | S n' =>
      match p s i with
      | Some e => Some e
      | None => scan p s (S i) n'
      end
  end.

(** [re.test(s)]: the answer and the object after the call. *)
Definition test (re : t) (s : string) : bool * t :=
  let len := String.length s in
  let start := if global re then lastIndex re else 0 in
  if len <? start then (false, if global re then setLastIndex re 0 else re)
  else
    match scan (program re) s start (S (len - start)) with
    | Some e => (true, if global re then setLastIndex re e else re)
    | None => (false, if global re then setLastIndex re 0 else re)
    end.
End RegExp.

(** ** Errors *)

Inductive Error : Type :=
| Misconfigured
| RegExpSyntaxError
| UnknownRootId (rootId : string)
| RootDoesNotExist (rootId path : string)
| UnsafeRelPath
| PathEscapesRoot
| FileNotFound
| PathEscapesRootSymlink
| SymlinksNotAllowed
| PathExcluded
| NotAFile
| ReadFileFailed
| QueryRequired
| RootIdAndRelPathRequired
| EventNameRequired.

Inductive Result (A : Type) : Type :=
| Returned (a : A)
| Threw (e : Error).
Arguments Returned {A} a.
Arguments Threw {A} e.

Definition bind {A B : Type} (r : Result A) (k : A -> Result B) : Result B :=
  match r with
  | Returned a => k a
  | Threw e => Threw e
  end.

Definition isThrew {A : Type} (r : Result A) : bool :=
  match r with Threw _ => true | Returned _ => false end.

(** [promise.catch(() => null)] *)
Definition catchNull {A : Type} (r : Result A) : option A :=
  match r with
  | Returned a => Some a
  | Threw _ => None
  end.

(** ** Configuration *)

Module RootCfg.
Record t : Type := make {
  id : string;
  path : string;
  kind : option string;
  (** [None]: no [exclude] array *)
  exclude : option (list string)
}.
End RootCfg.

(** [api.pluginConfig] as it arrives. A field whose shape the code tests
    at run time is an option: [None] stands for a value that fails the test
    (absent, or of another type). An entry of [roots] that is not an object
    is [None]. *)
Module RawCfg.
Record t : Type := make {
  roots : option (list (option RootCfg.t));
  maxFileBytes : option number;
  maxHits : option number;
  followSymlinks : option bool;
  exclude : option (list string);
  includeExtensions : option (list string)
}.
Definition none : t := make None None None None None None.
End RawCfg.

(** [Required<PluginCfg>] *)
Module PluginCfg.
Record t : Type := make {
  roots : list RootCfg.t;
  maxFileBytes : number;
  maxHits : number;
  followSymlinks : bool;
  exclude : list string;
  includeExtensions : list string
}.
End PluginCfg.

(** What the code reads of [OpenClawPluginApi]. *)
Module Api.
Record t : Type := make {
  pluginConfig : option RawCfg.t;
  (** [api.config?.agents?.defaults?.workspace] *)
  workspace : option string
}.
End Api.

Module ResolvedRoot.
Record t : Type := make {
  id : string;
  kind : option string;
  path : string;
  exists_ : bool;
  exclude : list string
}.
End ResolvedRoot.

Definition backslash : ascii := ascii_of_nat 92.

(** [p.replaceAll("\\\\", "/")]: the literal in the source denotes two
    backslash characters. *)
Definition normalizePathForMatch (p : string) : string :=
  JS.replaceAll p (String backslash (String backslash EmptyString)) NodePath.sep.

Definition isWithinRoot (cwd rootDir candidatePath : string) : bool :=
  let rel := NodePath.relative cwd rootDir candidatePath in
  if JS.isEmpty rel then true
  else if String.eqb rel NodePath.dotdot
          || JS.startsWith rel (NodePath.dotdot ++ NodePath.sep)%string
  then false
  else negb (NodePath.isAbsolute rel).

Definition tilde : ascii := ascii_of_nat 126.

Definition expandHome (rt : Runtime) (p : string) : string :=
  match p with
  | String c EmptyString =>
      if Ascii.eqb c tilde then homedir rt else p
  | String c (String c' rest) =>
      if Ascii.eqb c tilde && Ascii.eqb c' NodePath.slash
      then NodePath.join [homedir rt; rest]
      else p
  | EmptyString => p
  end.

Definition toAbsPath (rt : Runtime) (inputPath : string) (baseDir : option string)
  : string :=
  let expanded := expandHome rt (JS.trim inputPath) in
  if NodePath.isAbsolute expanded then NodePath.normalize expanded
  else
    let base :=
      match baseDir with
      | Some b => if JS.isEmpty b then cwd rt else expandHome rt b
      | None => cwd rt
      end in
    NodePath.normalize (NodePath.resolve (cwd rt) [base; expanded]).

Definition pathExists (rt : Runtime) (p : string) : bool := access (fs rt) p.

Definition keepObjects (l : list (option RootCfg.t)) : list RootCfg.t :=
  flat_map (fun r => match r with Some c => [c] | None => [] end) l.

Definition positiveOr (x : option number) (dflt : number) : number :=
  match x with
  | Some n => if Num.gtZero n then n else dflt
  | None => dflt
  end.

Definition getPluginCfg (api : Api.t) : Result PluginCfg.t :=
  let raw := match Api.pluginConfig api with Some r => r | None => RawCfg.none end in
  let roots := match RawCfg.roots raw with Some l => keepObjects l | None => [] end in
  if (List.length roots =? 0) then Threw Misconfigured
  else
    Returned
      (PluginCfg.make
         roots
         (positiveOr (RawCfg.maxFileBytes raw) (Num.ofZ 2000000))
         (positiveOr (RawCfg.maxHits raw) (Num.ofZ 200))
         (match RawCfg.followSymlinks raw with Some true => true | _ => false end)
         (match RawCfg.exclude raw with Some l => l | None => [] end)
         (match RawCfg.includeExtensions raw with
          | Some l => filter (fun s => negb (JS.isEmpty (JS.trim s))) l
          | None => []
          end)).

Definition resolveRoot (rt : Runtime) (workspaceDir : option string) (r : RootCfg.t)
  : ResolvedRoot.t :=
  let abs := toAbsPath rt (RootCfg.path r) workspaceDir in
  ResolvedRoot.make
    (RootCfg.id r)
    (RootCfg.kind r)
    abs
    (pathExists rt abs)
    (match RootCfg.exclude r with Some l => l | None => [] end).

Definition resolveRoots (rt : Runtime) (api : Api.t)
  : Result (PluginCfg.t * list ResolvedRoot.t) :=
  bind (getPluginCfg api) (fun cfg =>
    Returned (cfg, map (resolveRoot rt (Api.workspace api)) (PluginCfg.roots cfg))).

(** ** File filter *)

(** One of the two loops of [shouldExclude]. *)
Definition anyPattern (norm : string) (pats : list string) : bool :=
  existsb (fun pat => negb (JS.isEmpty pat) && JS.includes norm pat) pats.

Definition shouldExclude (filePath : string) (globalExclude rootExclude : list string)
  : bool :=
  let norm := normalizePathForMatch filePath in
  if anyPattern norm globalExclude then true
  else if anyPattern norm rootExclude then true
  else false.

Definition extOk (filePath : string) (includeExtensions : list string) : bool :=
  if (List.length includeExtensions =? 0) then true
  else
    let ext := JS.toLowerCase (NodePath.extname filePath) in
    JS.arrayIncludes (map JS.toLowerCase includeExtensions) ext.

Module SearchHit.
Record t : Type := make {
  rootId : string;
  file : string;
  line : nat;
  text : string
}.
End SearchHit.

(** ** Walker *)

Module WalkParams.
Record t : Type := make {
  rootDir : string;
  rootId : string;
  globalExclude : list string;
  rootExclude : list string;
  includeExtensions : list string;
  followSymlinks : bool
}.
End WalkParams.

(** What the body of the loop over a directory's entries does with one
    entry. *)
Inductive Visit : Type :=
| Skip
| Push (full : string)
| Yield (full : string).

Definition visitStat (p : WalkParams.t) (full : string) (isDir isFile : bool) : Visit :=
  if isDir then Push full
  else if isFile then
    if negb (extOk full (WalkParams.includeExtensions p)) then Skip else Yield full
  else Skip.

Definition visitEntry (rt : Runtime) (p : WalkParams.t) (rootReal dir : string)
  (ent : Dirent.t) : Visit :=
  let full := NodePath.join [dir; Dirent.name ent] in
  if shouldExclude full (WalkParams.globalExclude p) (WalkParams.rootExclude p)
  then Skip
  else if Dirent.isSymbolicLink ent then
    if negb (WalkParams.followSymlinks p) then Skip
    else
      match realpath (fs rt) full with
      | None => Skip
      | Some real =>
          if JS.isEmpty real || negb (isWithinRoot (cwd rt) rootReal real) then Skip
          else
            match stat (fs rt) full with
            | None => Skip
            | Some st => visitStat p full (Stats.isDirectory st) (Stats.isFile st)
            end
      end
  else visitStat p full (Dirent.isDirectory ent) (Dirent.isFile ent).

(** The generator of [walkFiles] between two [yield]s: the stack of
    directories still to list (its head is the end of the array, where
    [push] and [pop] work), the directory being listed and its entries
    still to visit. *)
Module Walker.
Record t : Type := make {
  rootReal : string;
  stack : list string;
  dir : string;
  entries : list Dirent.t
}.
End Walker.

(** The generator before its first step. *)
Definition walkFiles (rt : Runtime) (p : WalkParams.t) : Walker.t :=
  let rootReal :=
    match realpath (fs rt) (WalkParams.rootDir p) with
    | Some r => r
    | None => WalkParams.rootDir p
    end in
  Walker.make rootReal [WalkParams.rootDir p] EmptyString [].

(** [next()] on the generator: it runs until the next [yield] (the path and
    the suspended generator) or until the stack is empty ([Some None]).
    Each entry visited and each directory taken off the stack is one step;
    [None] when [fuel] steps were not enough. *)
Fixpoint walkNext (rt : Runtime) (p : WalkParams.t) (fuel : nat) (w : Walker.t)
  : option (option (string * Walker.t)) :=
  match fuel with
  | O => None
  | S k =>
      let rootReal := Walker.rootReal w in
      match Walker.entries w with
      | ent :: rest =>
          match visitEntry rt p rootReal (Walker.dir w) ent with
          | Skip =>
              walkNext rt p k (Walker.make rootReal (Walker.stack w) (Walker.dir w) rest)
          | Push full =>
              walkNext rt p k
                (Walker.make rootReal (full :: Walker.stack w) (Walker.dir w) rest)
          | Yield full =>
              Some (Some (full, Walker.make rootReal (Walker.stack w) (Walker.dir w) rest))
          end
      | [] =>
          match Walker.stack w with
          | [] => Some None
          | dir :: stack =>
              if JS.isEmpty dir
              then walkNext rt p k (Walker.make rootReal stack (Walker.dir w) [])
              else
                match readdir (fs rt) dir with
                | None => walkNext rt p k (Walker.make rootReal stack (Walker.dir w) [])
                | Some entries => walkNext rt p k (Walker.make rootReal stack dir entries)
                end
          end
      end
  end.

(** ** Reader *)

Definition readTextFileLimited (rt : Runtime) (filePath : string) (maxBytes : number)
  : option string :=
  match stat (fs rt) filePath with
  | None => None
  | Some st =>
      if negb (Stats.isFile st) then None
      else if Num.natGt (Stats.size st) maxBytes then None
      else
        match readFile (fs rt) filePath with
        | None => None
        | Some bytes => Some (utf8Decode rt bytes)
        end
  end.

(** ** Matcher *)

(** The closure [makeMatcher] returns, with the state it closes over. *)
Inductive Matcher : Type :=
| SubstringMatcher (q : string) (caseSensitive : bool)
| RegexMatcher (re : RegExp.t).

Definition makeMatcher (rt : Runtime) (query : string) (regex caseSensitive : bool)
  : Result Matcher :=
  let q := if caseSensitive then query else JS.toLowerCase query in
  if regex then
    match regexpCompile rt query (negb caseSensitive) with
    | None => Threw RegExpSyntaxError
    | Some prog => Returned (RegexMatcher (RegExp.make prog true 0))
    end
  else Returned (SubstringMatcher q caseSensitive).

(** A call of the matcher: its answer and the matcher after the call. *)
Definition applyMatcher (m : Matcher) (s : string) : bool * Matcher :=
  match m with
  | SubstringMatcher q caseSensitive =>
      let hay := if caseSensitive then s else JS.toLowerCase s in
      (JS.includes hay q, m)
  | RegexMatcher re =>
      let '(b, re') := RegExp.test re s in (b, RegexMatcher re')
  end.

(** ** Search engine *)

Module SearchParams.
Record t : Type := make {
  query : string;
  (** [None]: no [rootIds] array *)
  rootIds : option (list string);
  regex : bool;
  caseSensitive : bool;
  (** [None]: [maxHits] is not a number *)
  maxHits : option number
}.
End SearchParams.

Module SearchResult.
Record t : Type := make {
  hits : list SearchHit.t;
  scannedFiles : nat;
  skippedLargeFiles : nat
}.
End SearchResult.

(** What a search does, in order: a file handed to the reader, a line
    handed to the matcher, a hit appended. The record is not part of the
    program; properties about the order of the work are stated on it. *)
Inductive Event : Type :=
| Scanned (filePath : string)
| Tested (filePath : string) (line : nat)
| Appended (hit : SearchHit.t).

(** The local variables of [searchAcrossRoots] that its loops update, the
    state of the matcher, and the record of the work done. *)
Module SearchState.
Record t : Type := make {
  hits : list SearchHit.t;
  scannedFiles : nat;
  skippedLargeFiles : nat;
  matcher : Matcher;
  events : list Event
}.
Definition result (st : t) : SearchResult.t :=
  SearchResult.make (hits st) (scannedFiles st) (skippedLargeFiles st).
End SearchState.

Definition selectRoots (rootIds : option (list string)) (roots : list ResolvedRoot.t)
  : list ResolvedRoot.t :=
  match rootIds with
  | Some ids =>
      if 0 <? List.length ids
      then filter (fun r => JS.arrayIncludes ids (ResolvedRoot.id r)) roots
      else roots
  | None => roots
  end.

Definition effectiveMaxHits (maxHits : option number) (cfg : PluginCfg.t) : number :=
  positiveOr maxHits (PluginCfg.maxHits cfg).

Definition entitle (p : string) : string := normalizePathForMatch p.

(** The [file] of a hit: [path.relative(root.path, filePath) || entitle(filePath)] *)
Definition hitFile (rt : Runtime) (root : ResolvedRoot.t) (filePath : string) : string :=
  let rel := NodePath.relative (cwd rt) (ResolvedRoot.path root) filePath in
  if JS.isEmpty rel then entitle filePath else rel.

Definition makeHit (rt : Runtime) (root : ResolvedRoot.t) (filePath : string)
  (i : nat) (line : string) : SearchHit.t :=
  SearchHit.make (ResolvedRoot.id root) (hitFile rt root filePath) (i + 1)
    (JS.slice0 400 line).

(** The loop over the lines of one file, from index [i] on. The flag tells
    whether the function returned from inside the loop. *)
Fixpoint scanLines (rt : Runtime) (root : ResolvedRoot.t) (filePath : string)
  (maxHits : number) (i : nat) (lines : list string) (st : SearchState.t)
  : bool * SearchState.t :=
  match lines with
  | [] => (false, st)
  | line :: rest =>
      let '(matched, m') := applyMatcher (SearchState.matcher st) line in
      let st1 :=
        SearchState.make (SearchState.hits st) (SearchState.scannedFiles st)
          (SearchState.skippedLargeFiles st) m'
          (SearchState.events st ++ [Tested filePath (i + 1)]) in
      if negb matched then scanLines rt root filePath maxHits (S i) rest st1
      else
        let hit := makeHit rt root filePath i line in
        let st2 :=
          SearchState.make (SearchState.hits st1 ++ [hit])
            (SearchState.scannedFiles st1) (SearchState.skippedLargeFiles st1)
            (SearchState.matcher st1) (SearchState.events st1 ++ [Appended hit]) in
        if Num.natGe (List.length (SearchState.hits st2)) maxHits then (true, st2)
        else scanLines rt root filePath maxHits (S i) rest st2
  end.

(** The body of the loop over the walker's files, after the check of the
    cap at its top. *)
Definition scanFile (rt : Runtime) (cfg : PluginCfg.t) (root : ResolvedRoot.t)
  (maxHits : number) (filePath : string) (st : SearchState.t)
  : bool * SearchState.t :=
  let st1 :=
    SearchState.make (SearchState.hits st) (SearchState.scannedFiles st + 1)
      (SearchState.skippedLargeFiles st) (SearchState.matcher st)
      (SearchState.events st ++ [Scanned filePath]) in
  match readTextFileLimited rt filePath (PluginCfg.maxFileBytes cfg) with
  | None =>
      (false,
       SearchState.make (SearchState.hits st1) (SearchState.scannedFiles st1)
         (SearchState.skippedLargeFiles st1 + 1) (SearchState.matcher st1)
         (SearchState.events st1))
  | Some text => scanLines rt root filePath maxHits 0 (JS.splitLines text) st1
  end.

Definition walkParams (cfg : PluginCfg.t) (root : ResolvedRoot.t) : WalkParams.t :=
  WalkParams.make (ResolvedRoot.path root) (ResolvedRoot.id root)
    (PluginCfg.exclude cfg) (ResolvedRoot.exclude root)
    (PluginCfg.includeExtensions cfg) (PluginCfg.followSymlinks cfg).

(** The [for await] loop over the files of one root. [None] when [fuel]
    steps were not enough. *)
Fixpoint searchFiles (rt : Runtime) (cfg : PluginCfg.t) (root : ResolvedRoot.t)
  (maxHits : number) (fuel : nat) (w : Walker.t) (st : SearchState.t)
  : option (bool * SearchState.t) :=
  match fuel with
  | O => None
  | S k =>
      match walkNext rt (walkParams cfg root) k w with
      | None => None
      | Some None => Some (false, st)
      | Some (Some (filePath, w')) =>
          if Num.natGe (List.length (SearchState.hits st)) maxHits
          then Some (true, st)
          else
            let '(returned, st') := scanFile rt cfg root maxHits filePath st in
            if returned then Some (true, st')
            else searchFiles rt cfg root maxHits k w' st'
      end
  end.

(** The loop over the selected roots. *)
Fixpoint searchRoots (rt : Runtime) (cfg : PluginCfg.t) (maxHits : number)
  (fuel : nat) (selected : list ResolvedRoot.t) (st : SearchState.t)
  : option SearchState.t :=
  match selected with
  | [] => Some st
  | root :: rest =>
      if negb (ResolvedRoot.exists_ root)
      then searchRoots rt cfg maxHits fuel rest st
      else
        match
          searchFiles rt cfg root maxHits fuel
            (walkFiles rt (walkParams cfg root)) st
        with
        | None => None
        | Some (true, st') => Some st'
        | Some (false, st') => searchRoots rt cfg maxHits fuel rest st'
        end
  end.

Definition initialState (m : Matcher) : SearchState.t :=
  SearchState.make [] 0 0 m [].

(** [searchAcrossRoots] with the state it ends in. The outer [option] is
    [None] when [fuel] steps were not enough. *)
Definition searchRun (rt : Runtime) (api : Api.t) (params : SearchParams.t)
  (fuel : nat) : option (Result SearchState.t) :=
  match resolveRoots rt api with
  | Threw e => Some (Threw e)
  | Returned (cfg, roots) =>
      let selected := selectRoots (SearchParams.rootIds params) roots in
      match
        makeMatcher rt (SearchParams.query params) (SearchParams.regex params)
          (SearchParams.caseSensitive params)
      with
      | Threw e => Some (Threw e)
      | Returned matcher =>
          let maxHits := effectiveMaxHits (SearchParams.maxHits params) cfg in
          match searchRoots rt cfg maxHits fuel selected (initialState matcher) with
          | None => None
          | Some st => Some (Returned st)
          end
      end
  end.

Definition searchAcrossRoots (rt : Runtime) (api : Api.t) (params : SearchParams.t)
  (fuel : nat) : option (Result SearchResult.t) :=
  match searchRun rt api params fuel with
  | None => None
  | Some (Threw e) => Some (Threw e)
  | Some (Returned st) => Some (Returned (SearchState.result st))
  end.

(** ** Direct read *)

Module ReadResult.
Record t : Type := make {
  rootId : string;
  absPath : string;
  relPath : string;
  truncated : bool;
  text : string
}.
End ReadResult.

Definition findRoot (rootId : string) (roots : list ResolvedRoot.t)
  : option ResolvedRoot.t :=
  find (fun r => String.eqb (ResolvedRoot.id r) rootId) roots.

(** The last part of [readFileFromRoot]: the bytes read, cut at the bound. *)
Definition readBounded (rt : Runtime) (root : ResolvedRoot.t) (abs rel : string)
  (maxBytes : number) (st : Stats.t) : Result ReadResult.t :=
  let truncated := Num.natGt (Stats.size st) maxBytes in
  match readFile (fs rt) abs with
  | None => Threw ReadFileFailed
  | Some buf =>
      let sliced :=
        if truncated then firstn (Num.subarrayEnd (List.length buf) maxBytes) buf
        else buf in
      Returned
        (ReadResult.make (ResolvedRoot.id root) abs rel truncated
           (utf8Decode rt sliced))
  end.

Definition readFileFromRoot (rt : Runtime) (api : Api.t) (rootId relPath : string)
  (maxBytes : option number) : Result ReadResult.t :=
  bind (resolveRoots rt api) (fun '(cfg, roots) =>
  match findRoot rootId roots with
  | None => Threw (UnknownRootId rootId)
  | Some root =>
  if negb (ResolvedRoot.exists_ root)
  then Threw (RootDoesNotExist (ResolvedRoot.id root) (ResolvedRoot.path root))
  else
  let rel := JS.trim relPath in
  if JS.isEmpty rel || JS.startsWith rel NodePath.sep || JS.includes rel NodePath.dotdot
  then Threw UnsafeRelPath
  else
  let abs := NodePath.normalize (NodePath.join [ResolvedRoot.path root; rel]) in
  if negb (isWithinRoot (cwd rt) (ResolvedRoot.path root) abs)
  then Threw PathEscapesRoot
  else
  let relFromRoot := NodePath.relative (cwd rt) (ResolvedRoot.path root) abs in
  let rootReal :=
    match realpath (fs rt) (ResolvedRoot.path root) with
    | Some r => r
    | None => ResolvedRoot.path root
    end in
  match realpath (fs rt) abs with
  | None => Threw FileNotFound
  | Some absReal =>
  if JS.isEmpty absReal then Threw FileNotFound
  else if negb (isWithinRoot (cwd rt) rootReal absReal)
  then Threw PathEscapesRootSymlink
  else
  let expectedReal := NodePath.normalize (NodePath.join [rootReal; relFromRoot]) in
  if negb (PluginCfg.followSymlinks cfg) && negb (String.eqb absReal expectedReal)
  then Threw SymlinksNotAllowed
  else if shouldExclude abs (PluginCfg.exclude cfg) (ResolvedRoot.exclude root)
  then Threw PathExcluded
  else
  let maxBytes := positiveOr maxBytes (PluginCfg.maxFileBytes cfg) in
  match stat (fs rt) abs with
  | None => Threw FileNotFound
  | Some st =>
  if negb (Stats.isFile st) then Threw NotAFile
  else readBounded rt root abs rel maxBytes st
  end end end).

(** ** Tools *)

(** The arguments of [audio_search]; [None] for [query] when it is not a
    string. *)
Module SearchArgs.
Record t : Type := make {
  query : option string;
  rootIds : option (list string);
  regex : option bool;
  caseSensitive : option bool;
  maxHits : option number
}.
End SearchArgs.

Definition isTrue (b : option bool) : bool :=
  match b with Some true => true | _ => false end.

Definition stringOrEmpty (s : option string) : string :=
  match s with Some x => x | None => EmptyString end.

(** [audio_search.execute]: the details of its result, the query and the
    root ids apart. *)
Definition audio_search (rt : Runtime) (api : Api.t) (args : SearchArgs.t)
  (fuel : nat) : option (Result SearchResult.t) :=
  let query := stringOrEmpty (SearchArgs.query args) in
  if JS.isEmpty (JS.trim query) then Some (Threw QueryRequired)
  else
    searchAcrossRoots rt api
      (SearchParams.make query (SearchArgs.rootIds args)
         (isTrue (SearchArgs.regex args)) (isTrue (SearchArgs.caseSensitive args))
         (SearchArgs.maxHits args))
      fuel.

Module Limits.
Record t : Type := make {
  maxFileBytes : number;
  maxHits : number;
  followSymlinks : bool
}.
End Limits.

Module RootsDetails.
Record t : Type := make {
  roots : list ResolvedRoot.t;
  limits : Limits.t;
  exclude : list string;
  includeExtensions : list string
}.
End RootsDetails.


(** [audio_read.execute] *)
Definition audio_read (rt : Runtime) (api : Api.t) (rootId relPath : option string)
  (maxBytes : option number) : Result ReadResult.t :=
  let rootId := stringOrEmpty rootId in
  let relPath := stringOrEmpty relPath in
  if JS.isEmpty (JS.trim rootId) || JS.isEmpty (JS.trim relPath)
  then Threw RootIdAndRelPathRequired
  else readFileFromRoot rt api rootId relPath maxBytes.

Module EventChecks.
Record t : Type := make {
  requirements : option SearchResult.t;
  wwiseNameAttr : option SearchResult.t;
  unityRefs : option SearchResult.t;
  fallback : option SearchResult.t
}.
End EventChecks.

Module Interpretation.
Record t : Type := make {
  requirementsMentioned : bool;
  wwiseProbablyDefined : bool;
  unityReferenced : bool
}.
End Interpretation.

Module EventDetails.
Record t : Type := make {
  eventName : string;
  checks : EventChecks.t;
  interpretation : Interpretation.t
}.
End EventDetails.

Definition quote : ascii := ascii_of_nat 34.

(** The query of the Wwise search: [Name="<eventName>"] *)
Definition nameAttr (eventName : string) : string :=
  ("Name=" ++ String quote eventName ++ String quote EmptyString)%string.

(** A search whose only arguments are the query and the root ids. *)
Definition plainSearch (query : string) (rootIds : option (list string))
  : SearchParams.t :=
  SearchParams.make query rootIds false false None.

(** [(r?.hits?.length ?? 0) > 0] *)
Definition hasHits (r : option SearchResult.t) : bool :=
  match r with
  | Some x => 0 <? List.length (SearchResult.hits x)
  | None => false
  end.

(** A sub-search with [.catch(() => null)]; the outer [None] is a search
    that [fuel] steps did not finish. *)
Definition caught (r : option (Result SearchResult.t)) : option (option SearchResult.t) :=
  option_map catchNull r.

(** [audio_check_event.execute] *)
Definition audio_check_event (rt : Runtime) (api : Api.t) (eventName : option string)
  (fuel : nat) : option (Result EventDetails.t) :=
  let eventName := stringOrEmpty eventName in
  if JS.isEmpty (JS.trim eventName) then Some (Threw EventNameRequired)
  else
    match
      caught (searchAcrossRoots rt api (plainSearch eventName (Some ["requirements"%string])) fuel),
      caught (searchAcrossRoots rt api (plainSearch (nameAttr eventName) (Some ["wwise"%string])) fuel),
      caught (searchAcrossRoots rt api (plainSearch eventName (Some ["unity"%string])) fuel),
      caught (searchAcrossRoots rt api (plainSearch eventName None) fuel)
    with
    | Some req, Some wwise, Some unity, Some fallback =>
        Some (Returned
          (EventDetails.make eventName
             (EventChecks.make req wwise unity fallback)
             (Interpretation.make (hasHits req) (hasHits wwise) (hasHits unity))))
    | _, _, _, _ => None
    end.

(** ** A small world for the examples

    One directory tree, an engine for the regular expressions that are
    plain words, and a decoder for ASCII text.

<<
    /data            directory
      a.md           two lines, "ba" and "a"
      big..md        20 bytes
      large.md       20 bytes
      sub/           directory
        b.md         "alpha" CR LF "beta"
      link.md        symbolic link to /data/a.md
      out            symbolic link to /etc/passwd
    /gone            missing
>>
*)

Module Demo.

Definition isWordChar (c : ascii) : bool :=
  let n := JS.charCode c in
  ((48 <=? n) && (n <=? 57)) || ((65 <=? n) && (n <=? 90))
  || ((97 <=? n) && (n <=? 122)).

Fixpoint isWord (s : string) : bool :=
  match s with
  | EmptyString => true
  | String c s' => isWordChar c && isWord s'
  end.

(** The pattern [pat], all of it letters and digits, tried at index [i]. *)
Definition literalProgram (pat : string) (ignoreCase : bool) : Program :=
  fun s i =>
    let rest := String.substring i (String.length s - i) s in
    let fold := fun x => if ignoreCase then JS.toLowerCase x else x in
    if String.prefix (fold pat) (fold rest)
    then Some (i + String.length pat)
    else None.

(** An engine for the patterns that are words (they match themselves);
    it refuses every other pattern. *)
Definition literalCompile (pat : string) (ignoreCase : bool) : option Program :=
  if isWord pat then Some (literalProgram pat ignoreCase) else None.

Definition asciiDecode (b : list Byte.byte) : string := string_of_list_byte b.

Definition lines2 (a b : string) : string := (a ++ String JS.LF b)%string.
Definition crlf2 (a b : string) : string :=
  (a ++ String JS.CR (String JS.LF b))%string.

Definition aText : string := lines2 "ba" "a".
Definition bText : string := crlf2 "alpha" "beta".
Definition bigText : string := "01234567890123456789".

Definition fileEnt (n : string) : Dirent.t := Dirent.make n IsFile.
Definition dirEnt (n : string) : Dirent.t := Dirent.make n IsDirectory.
Definition linkEnt (n : string) : Dirent.t := Dirent.make n IsSymbolicLink.

(** The files of the tree: path, real path, content. *)
Definition files : list (string * (string * string)) :=
  [ ("/data/a.md", ("/data/a.md", aText));
    ("/data/big..md", ("/data/big..md", bigText));
    ("/data/large.md", ("/data/large.md", bigText));
    ("/data/sub/b.md", ("/data/sub/b.md", bText));
    ("/data/link.md", ("/data/a.md", aText));
    ("/data/out", ("/etc/passwd", "xyz")) ]%string.

(** The directories of the tree: path and entries. *)
Definition dirs : list (string * list Dirent.t) :=
  [ ("/data",
     [fileEnt "a.md"; fileEnt "big..md"; fileEnt "large.md"; dirEnt "sub";
      linkEnt "link.md"; linkEnt "out"]);
    ("/data/sub", [fileEnt "b.md"]) ]%string.

Definition lookup {A : Type} (p : string) (l : list (string * A)) : option A :=
  option_map snd (find (fun e => String.eqb (fst e) p) l).

Definition demoFs : FileSystem := {|
  access := fun p =>
    match lookup p dirs, lookup p files with
    | None, None => false
    | _, _ => true
    end;
  readdir := fun p => lookup p dirs;
  realpath := fun p =>
    match lookup p dirs with
    | Some _ => Some p
    | None => option_map fst (lookup p files)
    end;
  stat := fun p =>
    match lookup p dirs with
    | Some _ => Some (Stats.make IsDirectory 0)
    | None =>
        option_map (fun f => Stats.make IsFile (String.length (snd f)))
          (lookup p files)
    end;
  readFile := fun p =>
    option_map (fun f => list_byte_of_string (snd f)) (lookup p files)
|}.

Definition rt : Runtime := {|
  fs := demoFs;
  homedir := "/home/u";
  cwd := "/work";
  regexpCompile := literalCompile;
  utf8Decode := asciiDecode
|}.

Definition root (id path : string) : option RootCfg.t :=
  Some (RootCfg.make id path None None).

(** Three roots, the second one missing on disk; a ceiling of 12 bytes. *)
Definition rawCfg (followSymlinks : bool) : RawCfg.t :=
  RawCfg.make
    (Some [root "requirements" "/data"; root "wwise" "/gone";
           root "unity" "/data/sub"])
    (Some (Num.ofZ 12))
    (Some (Num.ofZ 50))
    (Some followSymlinks)
    (Some ["/.git/"%string])
    (Some [".md"%string]).

Definition api (followSymlinks : bool) : Api.t :=
  Api.make (Some (rawCfg followSymlinks)) (Some "/work"%string).

(** A configuration whose root list holds no object. *)
Definition apiNoObject : Api.t :=
  Api.make
    (Some (RawCfg.make (Some [None]) None None None None None))
    None.

Definition search (query : string) (rootIds : option (list string))
  (maxHits : option number) : SearchParams.t :=
  SearchParams.make query rootIds false false maxHits.

Definition regexSearch (query : string) : SearchParams.t :=
  SearchParams.make query None true true None.

End Demo.

(** ** Definitions the properties are stated with *)

(** *** Direct read *)

Definition realOrSelf (rt : Runtime) (p : string) : string :=
  match realpath (fs rt) p with
  | Some r => r
  | None => p
  end.

(** The absolute path [readFileFromRoot] works on. *)
Definition readTarget (root : ResolvedRoot.t) (relPath : string) : string :=
  NodePath.normalize (NodePath.join [ResolvedRoot.path root; JS.trim relPath]).

(** The real path [readFileFromRoot] expects of a target no symbolic link
    leads to. *)
Definition expectedReal (rt : Runtime) (root : ResolvedRoot.t) (relPath : string)
  : string :=
  NodePath.normalize
    (NodePath.join
       [realOrSelf rt (ResolvedRoot.path root);
        NodePath.relative (cwd rt) (ResolvedRoot.path root) (readTarget root relPath)]).

Definition configuredRoots (rt : Runtime) (api : Api.t) : list ResolvedRoot.t :=
  match resolveRoots rt api with
  | Returned (_, roots) => roots
  | Threw _ => []
  end.

(** The conditions under which the read fails, as the specification lists
    them, for a root that [rootId] matched. *)
Definition ListedFailure (rt : Runtime) (cfg : PluginCfg.t) (root : ResolvedRoot.t)
  (relPath : string) : Prop :=
  let rel := JS.trim relPath in
  let abs := readTarget root relPath in
  ResolvedRoot.exists_ root = false
  \/ rel = EmptyString
  \/ NodePath.isAbsolute rel = true
  \/ In NodePath.dotdot (JS.splitOn NodePath.slash rel)
  \/ isWithinRoot (cwd rt) (ResolvedRoot.path root) abs = false
  \/ (exists real, realpath (fs rt) abs = Some real
        /\ isWithinRoot (cwd rt) (realOrSelf rt (ResolvedRoot.path root)) real = false)
  \/ shouldExclude abs (PluginCfg.exclude cfg) (ResolvedRoot.exclude root) = true
  \/ realpath (fs rt) abs = None
  \/ stat (fs rt) abs = None
  \/ (exists st, stat (fs rt) abs = Some st /\ Stats.isFile st = false).

(** The conditions under which [readFileFromRoot] throws, for a root that
    [rootId] matched. *)
Definition Refused (rt : Runtime) (cfg : PluginCfg.t) (root : ResolvedRoot.t)
  (relPath : string) : Prop :=
  let rel := JS.trim relPath in
  let abs := readTarget root relPath in
  ResolvedRoot.exists_ root = false
  \/ rel = EmptyString
  \/ JS.startsWith rel NodePath.sep = true
  \/ JS.Substring NodePath.dotdot rel
  \/ isWithinRoot (cwd rt) (ResolvedRoot.path root) abs = false
  \/ realpath (fs rt) abs = None
  \/ realpath (fs rt) abs = Some EmptyString
  \/ (exists real, realpath (fs rt) abs = Some real
        /\ isWithinRoot (cwd rt) (realOrSelf rt (ResolvedRoot.path root)) real = false)
  \/ (PluginCfg.followSymlinks cfg = false
        /\ realpath (fs rt) abs <> Some (expectedReal rt root relPath))
  \/ shouldExclude abs (PluginCfg.exclude cfg) (ResolvedRoot.exclude root) = true
  \/ stat (fs rt) abs = None
  \/ (exists st, stat (fs rt) abs = Some st /\ Stats.isFile st = false)
  \/ readFile (fs rt) abs = None.

(** The text a read returns: the file's bytes, cut at the bound when the
    size [stat] reports is over it. *)
Definition boundedText (rt : Runtime) (abs : string) (maxBytes : number)
  (buf : list Byte.byte) (st : Stats.t) : string :=
  utf8Decode rt
    (if Num.natGt (Stats.size st) maxBytes
     then firstn (Num.subarrayEnd (List.length buf) maxBytes) buf
     else buf).


(** *** File filter *)

(** The claim as the specification words it: the separators of the path
    are normalized by mapping each backslash to a forward slash. *)
Fixpoint backslashesToSlashes (p : string) : string :=
  match p with
  | EmptyString => EmptyString
  | String c p' =>
      String (if Ascii.eqb c backslash then NodePath.slash else c)
        (backslashesToSlashes p')
  end.


(** *** Direct read, continued *)

(** When [readFileFromRoot] throws: no usable configuration, no root
    with this id, or a matched root and one of the conditions of
    [Refused]. *)
Definition ReadFails (rt : Runtime) (api : Api.t) (rootId relPath : string) : Prop :=
  match resolveRoots rt api with
  | Threw _ => True
  | Returned (cfg, roots) =>
      match findRoot rootId roots with
      | None => True
      | Some root => Refused rt cfg root relPath
      end
  end.

(** What [readFileFromRoot] returns when it does: the fields of its
    result, from the root matched, the bytes [buf] and the [stat] of the
    target. *)
Definition readValue (rt : Runtime) (cfg : PluginCfg.t) (root : ResolvedRoot.t)
  (relPath : string) (maxBytes : option number) (buf : list Byte.byte)
  (st : Stats.t) : ReadResult.t :=
  let bound := positiveOr maxBytes (PluginCfg.maxFileBytes cfg) in
  ReadResult.make (ResolvedRoot.id root) (readTarget root relPath) (JS.trim relPath)
    (Num.natGt (Stats.size st) bound)
    (boundedText rt (readTarget root relPath) bound buf st).

(** *** Root registry *)

(** The entries of the configured root list that are objects. *)
Definition objectRoots (api : Api.t) : list RootCfg.t :=
  match RawCfg.roots
          (match Api.pluginConfig api with Some r => r | None => RawCfg.none end)
  with
  | Some l => keepObjects l
  | None => []
  end.

(** *** Search engine *)

(** [x <= z] for a number and an integer. *)
Definition numLeZ (x : number) (z : Z) : Prop :=
  match x with
  | Finite q => (q <= inject_Z z)%Q
  | NegInfinity => True
  | PosInfinity | NaN => False
  end.

(** Where a loop of the search stands with respect to the cap: it goes on
    ([returned = false]) with fewer hits than the cap; it returned from
    inside with the cap reached by the hit appended last, nothing having
    been done since. *)
Definition CapState (cap : number) (returned : bool) (st : SearchState.t) : Prop :=
  if returned then
    Num.natGe (List.length (SearchState.hits st)) cap = true
    /\ exists hs h ev,
         SearchState.hits st = hs ++ [h]
         /\ SearchState.events st = ev ++ [Appended h]
         /\ Num.natGe (List.length hs) cap = false
  else Num.natGe (List.length (SearchState.hits st)) cap = false.

(** *** Walker *)

(** The path of an entry [e] of the directory [d]. *)
Definition entryPath (d : string) (e : Dirent.t) : string :=
  NodePath.join [d; Dirent.name e].

(** [p] resolves to a real path inside [rootReal]. *)
Definition Inside (rt : Runtime) (rootReal p : string) : Prop :=
  exists real,
    realpath (fs rt) p = Some real
    /\ isWithinRoot (cwd rt) rootReal real = true.

(** What holds of an entry the walker yields or descends into: if it is a
    symbolic link, links are followed and it resolves inside the root's
    real path. *)
Definition LinkChecked (rt : Runtime) (follow : bool) (rootReal d : string)
  (e : Dirent.t) : Prop :=
  Dirent.isSymbolicLink e = true ->
  follow = true /\ Inside rt rootReal (entryPath d e).

(** The directories the walker of a root can list: the root, and the
    entries, link-checked, of a directory it can list. *)
Inductive Reach (rt : Runtime) (follow : bool) (rootDir rootReal : string)
  : string -> Prop :=
| Reach_root : Reach rt follow rootDir rootReal rootDir
| Reach_entry d es e :
    Reach rt follow rootDir rootReal d ->
    readdir (fs rt) d = Some es ->
    In e es ->
    LinkChecked rt follow rootReal d e ->
    Reach rt follow rootDir rootReal (entryPath d e).

(** The paths the walker of a root can yield: the entries, link-checked,
    of a directory it can list. *)
Definition Yielded (rt : Runtime) (follow : bool) (rootDir rootReal f : string)
  : Prop :=
  exists d es e,
    Reach rt follow rootDir rootReal d
    /\ readdir (fs rt) d = Some es
    /\ In e es
    /\ LinkChecked rt follow rootReal d e
    /\ f = entryPath d e.



(** A hit made from a path [f] that satisfies [Q] for a selected root. *)
Definition HitFrom (rt : Runtime) (selected : list ResolvedRoot.t)
  (Q : ResolvedRoot.t -> string -> Prop) (h : SearchHit.t) : Prop :=
  exists root f,
    In root selected
    /\ Q root f
    /\ SearchHit.rootId h = ResolvedRoot.id root
    /\ SearchHit.file h = hitFile rt root f.

(** The paths the walker of [root] can yield in a search configured by
    [cfg]. *)
Definition YieldedIn (rt : Runtime) (cfg : PluginCfg.t) (root : ResolvedRoot.t)
  (f : string) : Prop :=
  Yielded rt (PluginCfg.followSymlinks cfg) (ResolvedRoot.path root)
    (realOrSelf rt (ResolvedRoot.path root)) f.

(** *** Shape of the hits and of the counters *)

(** The paths of [root] that pass the filters of a search configured by
    [cfg]. *)
Definition passesFilters (cfg : PluginCfg.t) (root : ResolvedRoot.t) (f : string)
  : Prop :=
  shouldExclude f (PluginCfg.exclude cfg) (ResolvedRoot.exclude root) = false
  /\ extOk f (PluginCfg.includeExtensions cfg) = true.





(** *** Substring matching *)

(** Whether a line holds the query, as the substring matcher decides it. *)
Definition lineMatches (query : string) (caseSensitive : bool) (line : string) : bool :=
  if caseSensitive then JS.includes line query
  else JS.includes (JS.toLowerCase line) (JS.toLowerCase query).

(** The hits of the lines of a file that hold the query, the first line
    having index [i]. *)
Fixpoint matchingHits (rt : Runtime) (root : ResolvedRoot.t) (filePath query : string)
  (caseSensitive : bool) (i : nat) (lines : list string) : list SearchHit.t :=
  match lines with
  | [] => []
  | line :: rest =>
      (if lineMatches query caseSensitive line
       then [makeHit rt root filePath i line] else [])
      ++ matchingHits rt root filePath query caseSensitive (S i) rest
  end.

(** *** Termination of the walk *)

(** The walk of a root descends a finite tree when the directories it
    pushes have a depth that decreases from a directory to the entries
    pushed from it. *)
Definition Descends (rt : Runtime) (p : WalkParams.t) (rootReal : string)
  (depth : string -> nat) : Prop :=
  forall d es e full,
    readdir (fs rt) d = Some es ->
    In e es ->
    visitEntry rt p rootReal d e = Push full ->
    depth full < depth d.

(** The steps an entry costs the walker: one to visit it, and the cost
    [sub] of the directory pushed, if one is. *)
Definition entryCost (rt : Runtime) (p : WalkParams.t) (rootReal : string)
  (sub : string -> nat) (d : string) (e : Dirent.t) : nat :=
  S (match visitEntry rt p rootReal d e with
     | Push full => sub full
     | Skip | Yield _ => 0
     end).

(** A bound on the steps the walker spends on the directory [d], once it
    is on the stack, down to [n] levels below it. *)
Fixpoint walkCost (rt : Runtime) (p : WalkParams.t) (rootReal : string)
  (n : nat) (d : string) {struct n} : nat :=
  S (match readdir (fs rt) d with
     | None => 0
     | Some es =>
         list_sum
           (map (entryCost rt p rootReal
                   (match n with
                    | O => fun _ => 0
                    | S n' => walkCost rt p rootReal n'
                    end) d) es)
     end).

(** A bound on the steps left to a walker. *)
Definition walkerCost (rt : Runtime) (p : WalkParams.t) (depth : string -> nat)
  (w : Walker.t) : nat :=
  let cost := fun d => walkCost rt p (Walker.rootReal w) (depth d) d in
  list_sum (map cost (Walker.stack w))
  + list_sum (map (entryCost rt p (Walker.rootReal w) cost (Walker.dir w))
                (Walker.entries w)).

(** *** Canonical paths *)

Fixpoint hasSlash (s : string) : bool :=
  match s with
  | EmptyString => false
  | String c s' => Ascii.eqb c NodePath.slash || hasSlash s'
  end.

(** The name of a directory entry: not empty, without a separator, and
    neither "." nor "..". *)
Definition ValidSegment (s : string) : Prop :=
  hasSlash s = false
  /\ s <> EmptyString
  /\ s <> NodePath.onedot
  /\ s <> NodePath.dotdot.

(** The absolute, normalized path made of the segments [segs]. *)
Definition canonical (segs : list string) : string :=
  (NodePath.sep ++ NodePath.joinSegments segs)%string.

(** The depth of the directories of the example tree. *)
Definition demoDepth (d : string) : nat :=
  if String.eqb d "/data" then 2 else if String.eqb d "/data/sub" then 1 else 0.


(** *** Containment of real paths *)






(** The invariant of the generator of [walkFiles]: every directory on the
    stack can be listed by the walker, and the entries still to visit are
    entries of the directory being listed. *)
Definition WalkerOk (rt : Runtime) (p : WalkParams.t) (w : Walker.t) : Prop :=
  Walker.rootReal w = realOrSelf rt (WalkParams.rootDir p)
  /\ Forall (Reach rt (WalkParams.followSymlinks p) (WalkParams.rootDir p)
               (realOrSelf rt (WalkParams.rootDir p)))
       (Walker.stack w)
  /\ forall e, In e (Walker.entries w) ->
       Reach rt (WalkParams.followSymlinks p) (WalkParams.rootDir p)
         (realOrSelf rt (WalkParams.rootDir p)) (Walker.dir w)
       /\ exists es, readdir (fs rt) (Walker.dir w) = Some es /\ In e es.

(** * Properties *)

(** ** Strings *)

Lemma prefix_iff_append (p s : string) :
  String.prefix p s = true <-> exists t : string, s = (p ++ t)%string.
Proof.
  revert s. induction p as [|a p IH]; intros s; simpl.
  - destruct s; split; intros; eauto.
  - destruct s as [|b s]; simpl.
    + split; [discriminate | intros [t Ht]; discriminate].
    + destruct (ascii_dec a b) as [->|Hab].
      * rewrite IH. split; intros [t Ht]; exists t.
        -- now rewrite Ht.
        -- now injection Ht.
      * split; [discriminate | intros [t Ht]; injection Ht; intros; congruence].
Qed.

Lemma includes_unfold (s p : string) :
  JS.includes s p =
  String.prefix p s
  || match s with EmptyString => false | String _ s' => JS.includes s' p end.
Proof. destruct s; reflexivity. Qed.

Lemma includes_iff_Substring (s p : string) :
  JS.includes s p = true <-> JS.Substring p s.
Proof.
  unfold JS.Substring. split.
  - induction s as [|c s IH]; rewrite includes_unfold; intros H;
      apply orb_true_iff in H; destruct H as [H|H].
    + apply prefix_iff_append in H. destruct H as [t ->]. now exists EmptyString, t.
    + discriminate.
    + apply prefix_iff_append in H. destruct H as [t ->]. now exists EmptyString, t.
    + destruct (IH H) as (a & b & ->). now exists (String c a), b.
  - intros (a & b & ->). induction a as [|c a IH]; rewrite includes_unfold.
    + apply orb_true_iff. left. apply prefix_iff_append. now exists b.
    + apply orb_true_iff. right. exact IH.
Qed.

Lemma isEmpty_true_iff (s : string) : JS.isEmpty s = true <-> s = EmptyString.
Proof. destruct s; simpl; split; congruence. Qed.

Lemma isEmpty_false_iff (s : string) : JS.isEmpty s = false <-> s <> EmptyString.
Proof. destruct s; simpl; split; congruence. Qed.

(** ** File filter *)

Lemma anyPattern_iff (norm : string) (pats : list string) :
  anyPattern norm pats = true <->
  exists pat, In pat pats /\ pat <> EmptyString /\ JS.Substring pat norm.
Proof.
  unfold anyPattern. rewrite existsb_exists. split.
  - intros (pat & Hin & H). apply andb_true_iff in H. destruct H as [Hne Hinc].
    exists pat. repeat split; trivial.
    + apply isEmpty_false_iff. now apply negb_true_iff.
    + now apply includes_iff_Substring.
  - intros (pat & Hin & Hne & Hsub). exists pat. split; trivial.
    apply andb_true_iff. split.
    + apply negb_true_iff. now apply isEmpty_false_iff.
    + now apply includes_iff_Substring.
Qed.

Lemma shouldExclude_anyPattern (filePath : string) (g r : list string) :
  shouldExclude filePath g r = anyPattern (normalizePathForMatch filePath) (g ++ r).
Proof.
  unfold shouldExclude, anyPattern. rewrite existsb_app.
  destruct (existsb _ g); simpl; trivial.
  now destruct (existsb _ r).
Qed.

(** C6, as stated, fails: the empty pattern is a literal substring of every
    normalized path, and [shouldExclude] passes it over. *)
Lemma shouldExclude_empty_pattern_counterexample :
  In EmptyString ([EmptyString] ++ [])
  /\ JS.Substring EmptyString (backslashesToSlashes "/data/a.md")
  /\ shouldExclude "/data/a.md" [EmptyString] [] = false.
Proof.
  repeat split.
  - now left.
  - now exists EmptyString, "/data/a.md"%string.
Qed.

(** C6, amended: [shouldExclude] answers true exactly when a pattern that
    is not empty, global or of the root, occurs literally in the path as
    [normalizePathForMatch] returns it; the answer is the same for any other
    order of the same patterns. *)
Theorem shouldExclude_iff_nonempty_substring :
  (forall filePath globalExclude rootExclude,
      shouldExclude filePath globalExclude rootExclude = true <->
      exists pat,
        In pat (globalExclude ++ rootExclude)
        /\ pat <> EmptyString
        /\ JS.Substring pat (normalizePathForMatch filePath))
  /\ (forall filePath g r g' r',
         Permutation (g ++ r) (g' ++ r') ->
         shouldExclude filePath g r = shouldExclude filePath g' r').
Proof.
  split.
  - intros. rewrite shouldExclude_anyPattern. apply anyPattern_iff.
  - intros filePath g r g' r' Hperm.
    rewrite !shouldExclude_anyPattern.
    apply eq_true_iff_eq. rewrite !anyPattern_iff.
    split; intros (pat & Hin & H); exists pat; split; trivial.
    + now apply (Permutation_in _ Hperm).
    + now apply (Permutation_in _ (Permutation_sym Hperm)).
Qed.

(** [normalizePathForMatch] leaves a lone backslash where it is, and turns
    a pair of them into one forward slash. *)
Lemma normalizePathForMatch_backslashes :
  normalizePathForMatch (String "a" (String backslash "b")) =
    String "a" (String backslash "b")
  /\ normalizePathForMatch (String "a" (String backslash (String backslash "b"))) = "a/b"%string.
Proof. split; reflexivity. Qed.

(** ** Direct read *)

Lemma readFileFromRoot_unfold rt api rootId relPath maxBytes cfg roots root :
  resolveRoots rt api = Returned (cfg, roots) ->
  findRoot rootId roots = Some root ->
  readFileFromRoot rt api rootId relPath maxBytes =
  let rel := JS.trim relPath in
  let abs := readTarget root relPath in
  if negb (ResolvedRoot.exists_ root)
  then Threw (RootDoesNotExist (ResolvedRoot.id root) (ResolvedRoot.path root))
  else if JS.isEmpty rel || JS.startsWith rel NodePath.sep
          || JS.includes rel NodePath.dotdot
  then Threw UnsafeRelPath
  else if negb (isWithinRoot (cwd rt) (ResolvedRoot.path root) abs)
  then Threw PathEscapesRoot
  else
    match realpath (fs rt) abs with
    | None => Threw FileNotFound
    | Some absReal =>
        if JS.isEmpty absReal then Threw FileNotFound
        else if negb (isWithinRoot (cwd rt) (realOrSelf rt (ResolvedRoot.path root)) absReal)
        then Threw PathEscapesRootSymlink
        else if negb (PluginCfg.followSymlinks cfg)
                && negb (String.eqb absReal (expectedReal rt root relPath))
        then Threw SymlinksNotAllowed
        else if shouldExclude abs (PluginCfg.exclude cfg) (ResolvedRoot.exclude root)
        then Threw PathExcluded
        else
          match stat (fs rt) abs with
          | None => Threw FileNotFound
          | Some st =>
              if negb (Stats.isFile st) then Threw NotAFile
              else
                readBounded rt root abs rel
                  (positiveOr maxBytes (PluginCfg.maxFileBytes cfg)) st
          end
    end.
Proof.
  intros Hres Hfind. unfold readFileFromRoot. rewrite Hres. simpl.
  rewrite Hfind. reflexivity.
Qed.

Lemma readFileFromRoot_no_config rt api rootId relPath maxBytes e :
  resolveRoots rt api = Threw e ->
  readFileFromRoot rt api rootId relPath maxBytes = Threw e.
Proof. intros H. unfold readFileFromRoot. now rewrite H. Qed.

Lemma readFileFromRoot_no_root rt api rootId relPath maxBytes cfg roots :
  resolveRoots rt api = Returned (cfg, roots) ->
  findRoot rootId roots = None ->
  readFileFromRoot rt api rootId relPath maxBytes = Threw (UnknownRootId rootId).
Proof.
  intros H Hf. unfold readFileFromRoot. rewrite H. simpl. now rewrite Hf.
Qed.

(** C10: a [relPath] whose trimmed value holds ".." anywhere is never read:
    the read throws, and with a root that [rootId] matches and that exists
    the error is the one for an unsafe [relPath]. *)
Theorem read_rejects_any_dotdot rt api rootId relPath maxBytes :
  JS.includes (JS.trim relPath) NodePath.dotdot = true ->
  (exists e, readFileFromRoot rt api rootId relPath maxBytes = Threw e)
  /\ (forall cfg roots root,
         resolveRoots rt api = Returned (cfg, roots) ->
         findRoot rootId roots = Some root ->
         ResolvedRoot.exists_ root = true ->
         readFileFromRoot rt api rootId relPath maxBytes = Threw UnsafeRelPath).
Proof.
  intros Hdd.
  assert (Hsome : forall cfg roots root,
             resolveRoots rt api = Returned (cfg, roots) ->
             findRoot rootId roots = Some root ->
             exists e, readFileFromRoot rt api rootId relPath maxBytes = Threw e
                       /\ (ResolvedRoot.exists_ root = true -> e = UnsafeRelPath)).
  { intros cfg roots root Hres Hfind.
    rewrite (readFileFromRoot_unfold _ _ _ _ _ _ _ _ Hres Hfind). cbv zeta.
    destruct (ResolvedRoot.exists_ root); simpl.
    - rewrite Hdd, !orb_true_r. eauto.
    - eexists. split; [reflexivity | discriminate]. }
  split.
  - destruct (resolveRoots rt api) as [[cfg roots]|e] eqn:Hres.
    + destruct (findRoot rootId roots) as [root|] eqn:Hfind.
      * destruct (Hsome _ _ _ eq_refl Hfind) as (e & He & _). eauto.
      * erewrite readFileFromRoot_no_root; eauto.
    + erewrite readFileFromRoot_no_config; eauto.
  - intros cfg roots root Hres Hfind Hex.
    destruct (Hsome _ _ _ Hres Hfind) as (e & He & Hu). rewrite He.
    now rewrite (Hu Hex).
Qed.

Lemma read_rejects_any_dotdot_witness :
  JS.includes (JS.trim "big..md") NodePath.dotdot = true
  /\ readFileFromRoot Demo.rt (Demo.api false) "requirements" "big..md" None
     = Threw UnsafeRelPath.
Proof.
  split; [reflexivity|].
  refine (proj2 (read_rejects_any_dotdot Demo.rt (Demo.api false) "requirements"
                   "big..md" None eq_refl) _ _ _ eq_refl eq_refl eq_refl).
Defined.

Lemma read_returned_inv rt api rootId relPath maxBytes cfg roots root r :
  resolveRoots rt api = Returned (cfg, roots) ->
  findRoot rootId roots = Some root ->
  readFileFromRoot rt api rootId relPath maxBytes = Returned r ->
  ~ Refused rt cfg root relPath
  /\ exists buf st,
       readFile (fs rt) (readTarget root relPath) = Some buf
       /\ stat (fs rt) (readTarget root relPath) = Some st
       /\ Stats.isFile st = true
       /\ r = readValue rt cfg root relPath maxBytes buf st.
Proof.
  intros Hres Hfind H.
  rewrite (readFileFromRoot_unfold _ _ _ _ _ _ _ _ Hres Hfind) in H. cbv zeta in H.
  destruct (ResolvedRoot.exists_ root) eqn:E1; simpl in H; [|discriminate].
  destruct (JS.isEmpty (JS.trim relPath)) eqn:E2; simpl in H; [discriminate|].
  destruct (JS.startsWith (JS.trim relPath) NodePath.sep) eqn:E3; simpl in H;
    [discriminate|].
  destruct (JS.includes (JS.trim relPath) NodePath.dotdot) eqn:E4; simpl in H;
    [discriminate|].
  destruct (isWithinRoot (cwd rt) (ResolvedRoot.path root) (readTarget root relPath))
    eqn:E5; simpl in H; [|discriminate].
  destruct (realpath (fs rt) (readTarget root relPath)) as [absReal|] eqn:E6;
    [|discriminate].
  destruct (JS.isEmpty absReal) eqn:E7; [discriminate|].
  destruct (isWithinRoot (cwd rt) (realOrSelf rt (ResolvedRoot.path root)) absReal)
    eqn:E8; simpl in H; [|discriminate].
  destruct (negb (PluginCfg.followSymlinks cfg)
            && negb (String.eqb absReal (expectedReal rt root relPath))) eqn:E9;
    [discriminate|].
  destruct (shouldExclude (readTarget root relPath) (PluginCfg.exclude cfg)
              (ResolvedRoot.exclude root)) eqn:E10; [discriminate|].
  destruct (stat (fs rt) (readTarget root relPath)) as [st|] eqn:E11; [|discriminate].
  destruct (Stats.isFile st) eqn:E12; simpl in H; [|discriminate].
  unfold readBounded in H.
  destruct (readFile (fs rt) (readTarget root relPath)) as [buf|] eqn:E13;
    [|discriminate].
  split.
  - unfold Refused. cbv zeta. rewrite E6, E11, E13.
    intros [R|[R|[R|[R|[R|[R|[R|[R|[R|[R|[R|[R|R]]]]]]]]]]]]; try congruence.
    + apply isEmpty_true_iff in R. congruence.
    + apply includes_iff_Substring in R. congruence.
    + injection R as ->. discriminate.
    + destruct R as (real & Hr & Hw). injection Hr as <-. congruence.
    + destruct R as [Hf Hne]. rewrite Hf in E9. simpl in E9.
      apply negb_false_iff, String.eqb_eq in E9. congruence.
    + destruct R as (st' & Hs & Hf). injection Hs as <-. congruence.
  - exists buf, st. repeat split; trivial. now injection H as <-.
Qed.

Lemma read_threw_inv rt api rootId relPath maxBytes cfg roots root e :
  resolveRoots rt api = Returned (cfg, roots) ->
  findRoot rootId roots = Some root ->
  readFileFromRoot rt api rootId relPath maxBytes = Threw e ->
  Refused rt cfg root relPath.
Proof.
  intros Hres Hfind H.
  rewrite (readFileFromRoot_unfold _ _ _ _ _ _ _ _ Hres Hfind) in H. cbv zeta in H.
  unfold Refused. cbv zeta.
  destruct (ResolvedRoot.exists_ root) eqn:E1; simpl in H; [|now left].
  destruct (JS.isEmpty (JS.trim relPath)) eqn:E2; simpl in H.
  { right. left. now apply isEmpty_true_iff. }
  destruct (JS.startsWith (JS.trim relPath) NodePath.sep) eqn:E3; simpl in H.
  { do 2 right. now left. }
  destruct (JS.includes (JS.trim relPath) NodePath.dotdot) eqn:E4; simpl in H.
  { do 3 right. left. now apply includes_iff_Substring. }
  destruct (isWithinRoot (cwd rt) (ResolvedRoot.path root) (readTarget root relPath))
    eqn:E5; simpl in H; [|do 4 right; now left].
  destruct (realpath (fs rt) (readTarget root relPath)) as [absReal|] eqn:E6;
    [|do 5 right; now left].
  destruct (JS.isEmpty absReal) eqn:E7.
  { do 6 right. left. apply isEmpty_true_iff in E7. now subst. }
  destruct (isWithinRoot (cwd rt) (realOrSelf rt (ResolvedRoot.path root)) absReal)
    eqn:E8; simpl in H; [|do 7 right; left; eauto].
  destruct (negb (PluginCfg.followSymlinks cfg)
            && negb (String.eqb absReal (expectedReal rt root relPath))) eqn:E9.
  { do 8 right. left. apply andb_true_iff in E9. destruct E9 as [Hf Hne].
    apply negb_true_iff in Hf. apply negb_true_iff, String.eqb_neq in Hne.
    split; congruence. }
  destruct (shouldExclude (readTarget root relPath) (PluginCfg.exclude cfg)
              (ResolvedRoot.exclude root)) eqn:E10; [do 9 right; now left|].
  destruct (stat (fs rt) (readTarget root relPath)) as [st|] eqn:E11;
    [|do 10 right; now left].
  destruct (Stats.isFile st) eqn:E12; simpl in H; [|do 11 right; left; eauto].
  unfold readBounded in H.
  destruct (readFile (fs rt) (readTarget root relPath)) as [buf|] eqn:E13;
    [discriminate|].
  do 12 right. reflexivity.
Qed.

(** Refutes, by evaluation, a disjunction of conditions on concrete
    inputs. *)
Ltac not_listed R :=
  repeat (destruct R as [R|R]);
  try (vm_compute in R; discriminate R);
  try (vm_compute in R; intuition discriminate);
  try (let x := fresh in let H1 := fresh in let H2 := fresh in
       destruct R as (x & H1 & H2); vm_compute in H1; injection H1 as <-;
       vm_compute in H2; discriminate H2).

(** C3, as stated, fails: with symbolic links not followed, a link inside
    the root to a regular file inside the root meets none of the listed
    conditions, and neither does a file whose name holds ".."; the read of
    either throws. *)
Lemma read_fails_outside_listed_counterexample :
  exists cfg roots root,
    resolveRoots Demo.rt (Demo.api false) = Returned (cfg, roots)
    /\ findRoot "requirements" roots = Some root
    /\ ~ ListedFailure Demo.rt cfg root "link.md"
    /\ readFileFromRoot Demo.rt (Demo.api false) "requirements" "link.md" None
       = Threw SymlinksNotAllowed
    /\ ~ ListedFailure Demo.rt cfg root "big..md"
    /\ readFileFromRoot Demo.rt (Demo.api false) "requirements" "big..md" None
       = Threw UnsafeRelPath.
Proof.
  exists (PluginCfg.make
            [RootCfg.make "requirements" "/data" None None;
             RootCfg.make "wwise" "/gone" None None;
             RootCfg.make "unity" "/data/sub" None None]
            (Num.ofZ 12) (Num.ofZ 50) false ["/.git/"%string] [".md"%string]),
         [ResolvedRoot.make "requirements" None "/data" true [];
          ResolvedRoot.make "wwise" None "/gone" false [];
          ResolvedRoot.make "unity" None "/data/sub" true []],
         (ResolvedRoot.make "requirements" None "/data" true []).
  split; [vm_compute; reflexivity|]. split; [vm_compute; reflexivity|].
  split; [|split; [vm_compute; reflexivity|split; [|vm_compute; reflexivity]]].
  - unfold ListedFailure. cbv zeta. intros R. not_listed R.
  - unfold ListedFailure. cbv zeta. intros R. not_listed R.
Qed.

(** C3, amended: the read throws exactly when the configuration has no
    usable root, [rootId] matches no configured root, or, for the root
    matched: it does not exist on disk; the trimmed [relPath] is empty,
    starts with "/" or holds ".." anywhere; the resolved path escapes the
    root nominally or by its real path; symbolic links are not followed and
    the real path is not the expected one; the path matches an exclusion
    pattern; the target does not resolve or cannot be stat-ed; it is not a
    regular file; or its bytes cannot be read. On every other input it
    returns the text decoded from the file's bytes, cut at the bound when
    the file is larger. *)
Theorem read_fails_iff_refused rt api rootId relPath maxBytes :
  ((exists e, readFileFromRoot rt api rootId relPath maxBytes = Threw e)
   <-> ReadFails rt api rootId relPath)
  /\ (~ ReadFails rt api rootId relPath ->
      exists cfg roots root buf st,
        resolveRoots rt api = Returned (cfg, roots)
        /\ findRoot rootId roots = Some root
        /\ readFile (fs rt) (readTarget root relPath) = Some buf
        /\ stat (fs rt) (readTarget root relPath) = Some st
        /\ readFileFromRoot rt api rootId relPath maxBytes
           = Returned (readValue rt cfg root relPath maxBytes buf st)).
Proof.
  unfold ReadFails.
  destruct (resolveRoots rt api) as [[cfg roots]|e0] eqn:Hres.
  2:{ split; [|tauto]. split; trivial. intros _.
      erewrite readFileFromRoot_no_config; eauto. }
  destruct (findRoot rootId roots) as [root|] eqn:Hfind.
  2:{ split; [|tauto]. split; trivial. intros _.
      erewrite readFileFromRoot_no_root; eauto. }
  destruct (readFileFromRoot rt api rootId relPath maxBytes) as [r|e] eqn:Hread.
  - destruct (read_returned_inv _ _ _ _ _ _ _ _ _ Hres Hfind Hread)
      as (Hnot & buf & st & Hb & Hs & _ & ->).
    split.
    + split; [intros [e He]; discriminate | tauto].
    + intros _. exists cfg, roots, root, buf, st. repeat split; trivial.
  - pose proof (read_threw_inv _ _ _ _ _ _ _ _ _ Hres Hfind Hread) as Href.
    split; [|tauto]. split; eauto.
Qed.


(** ** Root registry *)

Lemma keepObjects_nil_iff (l : list (option RootCfg.t)) :
  keepObjects l = [] <-> forall r, In r l -> r = None.
Proof.
  unfold keepObjects. induction l as [|[c|] l IH]; simpl.
  - split; [intros _ r [] | trivial].
  - split; [discriminate|]. intros H. now specialize (H (Some c) (or_introl eq_refl)).
  - rewrite IH. split.
    + intros H r [<-|Hin]; auto.
    + intros H r Hin. apply H. now right.
Qed.

Lemma getPluginCfg_threw_iff api :
  getPluginCfg api = Threw Misconfigured <-> objectRoots api = [].
Proof.
  unfold getPluginCfg, objectRoots.
  destruct (match RawCfg.roots _ with Some l => keepObjects l | None => [] end)
    as [|c l]; simpl; split; trivial; discriminate.
Qed.

Lemma getPluginCfg_returned api :
  objectRoots api <> [] ->
  exists cfg, getPluginCfg api = Returned cfg /\ PluginCfg.roots cfg = objectRoots api.
Proof.
  unfold getPluginCfg, objectRoots.
  destruct (match RawCfg.roots _ with Some l => keepObjects l | None => [] end)
    as [|c l]; simpl; [congruence|].
  intros _. eexists. split; reflexivity.
Qed.

Lemma searchRoots_skips_missing rt cfg maxHits fuel before root after st :
  ResolvedRoot.exists_ root = false ->
  searchRoots rt cfg maxHits fuel (before ++ root :: after) st
  = searchRoots rt cfg maxHits fuel (before ++ after) st.
Proof.
  intros Hex. revert st. induction before as [|r before IH]; intros st; simpl.
  - now rewrite Hex.
  - destruct (negb (ResolvedRoot.exists_ r)); [apply IH|].
    destruct (searchFiles _ _ _ _ _ _ _) as [[[|] st']|]; trivial.
Qed.

(** C8, as stated, fails: a root list that is neither empty nor absent,
    none of whose entries is an object, raises the configuration error. *)
Lemma resolveRoots_nonempty_list_counterexample :
  option_map RawCfg.roots (Api.pluginConfig Demo.apiNoObject) = Some (Some [None])
  /\ resolveRoots Demo.rt Demo.apiNoObject = Threw Misconfigured.
Proof. split; vm_compute; reflexivity. Qed.

(** C8, amended: root resolution raises the configuration error exactly
    when the configured root list is absent or holds no object entry (an
    empty list is such a list), and raises no other error; otherwise every
    object entry is resolved, a root whose path cannot be reached being
    reported with [exists = false]; and a search gives the same hits,
    counters and record of work with such a root in the selection as
    without it. *)
Theorem resolveRoots_raises_iff_no_object_root :
  (forall rt api,
      (resolveRoots rt api = Threw Misconfigured <-> objectRoots api = [])
      /\ (forall e, resolveRoots rt api = Threw e -> e = Misconfigured)
      /\ (objectRoots api <> [] ->
          exists cfg,
            PluginCfg.roots cfg = objectRoots api
            /\ resolveRoots rt api
               = Returned (cfg, map (resolveRoot rt (Api.workspace api)) (objectRoots api))))
  /\ (forall rt workspaceDir r,
         ResolvedRoot.exists_ (resolveRoot rt workspaceDir r)
         = access (fs rt) (toAbsPath rt (RootCfg.path r) workspaceDir))
  /\ (forall rt cfg maxHits fuel before root after st,
         ResolvedRoot.exists_ root = false ->
         searchRoots rt cfg maxHits fuel (before ++ root :: after) st
         = searchRoots rt cfg maxHits fuel (before ++ after) st).
Proof.
  split; [|split].
  - intros rt api.
    assert (Hthrew : forall e, resolveRoots rt api = Threw e ->
                               e = Misconfigured /\ objectRoots api = []).
    { intros e. unfold resolveRoots.
      destruct (getPluginCfg api) as [cfg|e'] eqn:Hcfg; simpl; [discriminate|].
      intros H. injection H as ->.
      unfold getPluginCfg in Hcfg. fold (objectRoots api) in Hcfg.
      destruct (objectRoots api); simpl in Hcfg; [|discriminate].
      injection Hcfg as <-. now split. }
    split; [|split].
    + split.
      * intros H. now apply Hthrew in H.
      * intros H. apply getPluginCfg_threw_iff in H.
        unfold resolveRoots. now rewrite H.
    + intros e H. now apply Hthrew in H.
    + intros Hne. destruct (getPluginCfg_returned _ Hne) as (cfg & Hcfg & Hroots).
      exists cfg. split; trivial. unfold resolveRoots. rewrite Hcfg. simpl.
      now rewrite Hroots.
  - reflexivity.
  - apply searchRoots_skips_missing.
Qed.

(** ** Numbers *)

Lemma gtZero_Finite_nonneg q : Num.gtZero (Finite q) = true -> (0 <= Qfloor q)%Z.
Proof.
  simpl. intros H. apply negb_true_iff in H.
  assert (Hq : (0 <= q)%Q).
  { apply Qlt_le_weak, Qnot_le_lt. intros Hle.
    apply Qle_bool_iff in Hle. congruence. }
  change 0%Z with (Qfloor (inject_Z 0)). now apply Qfloor_resp_le.
Qed.

Lemma gtZero_Finite_le_bool q : Num.gtZero (Finite q) = true -> Qle_bool 0 q = true.
Proof.
  simpl. intros H. apply negb_true_iff in H.
  apply Qle_bool_iff, Qlt_le_weak, Qnot_le_lt. intros Hle.
  apply Qle_bool_iff in Hle. congruence.
Qed.

Lemma firstn_min_length {A : Type} (n : nat) (l : list A) :
  firstn (Nat.min n (List.length l)) l = firstn n l.
Proof.
  destruct (Nat.le_ge_cases n (List.length l)) as [H|H].
  - now rewrite Nat.min_l.
  - rewrite Nat.min_r by trivial. now rewrite firstn_all, firstn_all2.
Qed.

(** Cutting a buffer at a positive finite bound keeps its first
    floor-of-the-bound bytes. *)
Lemma firstn_subarrayEnd (q : Q) (buf : list Byte.byte) :
  Num.gtZero (Finite q) = true ->
  firstn (Num.subarrayEnd (List.length buf) (Finite q)) buf
  = firstn (Z.to_nat (Qfloor q)) buf.
Proof.
  intros Hpos. unfold Num.subarrayEnd, Num.truncate.
  rewrite (gtZero_Finite_le_bool _ Hpos).
  pose proof (gtZero_Finite_nonneg _ Hpos) as Hfl.
  destruct (Z.ltb_spec (Qfloor q) 0); [lia|].
  apply firstn_min_length.
Qed.

Lemma positiveOr_positive (x : option number) (d : number) :
  Num.gtZero d = true -> Num.gtZero (positiveOr x d) = true.
Proof.
  intros Hd. unfold positiveOr. destruct x as [n|]; trivial.
  now destruct (Num.gtZero n) eqn:E.
Qed.

Lemma positiveOr_same (d : number) :
  Num.gtZero d = true -> positiveOr (Some d) d = d.
Proof. intros Hd. unfold positiveOr. now rewrite Hd. Qed.

Lemma getPluginCfg_limits_positive api cfg :
  getPluginCfg api = Returned cfg ->
  Num.gtZero (PluginCfg.maxFileBytes cfg) = true
  /\ Num.gtZero (PluginCfg.maxHits cfg) = true.
Proof.
  unfold getPluginCfg. destruct (List.length _ =? 0); [discriminate|].
  intros H. injection H as <-. simpl. split; now apply positiveOr_positive.
Qed.

Lemma resolveRoots_inv rt api cfg roots :
  resolveRoots rt api = Returned (cfg, roots) ->
  getPluginCfg api = Returned cfg
  /\ roots = map (resolveRoot rt (Api.workspace api)) (PluginCfg.roots cfg).
Proof.
  unfold resolveRoots. destruct (getPluginCfg api) as [c|e]; simpl; [|discriminate].
  intros H. injection H as <- <-. now split.
Qed.

(** ** Files over the byte ceiling *)

(** C4, as stated, fails: a regular file over the ceiling whose name
    holds ".." is counted by the search as skipped, and its direct read
    with the ceiling as [maxBytes] throws. *)
Lemma large_file_read_refused_counterexample :
  exists cfg roots root,
    resolveRoots Demo.rt (Demo.api false) = Returned (cfg, roots)
    /\ findRoot "requirements" roots = Some root
    /\ stat (fs Demo.rt) "/data/big..md" = Some (Stats.make IsFile 20)
    /\ Num.natGt 20 (PluginCfg.maxFileBytes cfg) = true
    /\ scanFile Demo.rt cfg root (Num.ofZ 50) "/data/big..md"
         (initialState (SubstringMatcher "0" false))
       = (false,
          SearchState.make [] 1 1 (SubstringMatcher "0" false)
            [Scanned "/data/big..md"])
    /\ readTarget root "big..md" = "/data/big..md"%string
    /\ readFileFromRoot Demo.rt (Demo.api false) "requirements" "big..md"
         (Some (PluginCfg.maxFileBytes cfg))
       = Threw UnsafeRelPath.
Proof.
  exists (PluginCfg.make
            [RootCfg.make "requirements" "/data" None None;
             RootCfg.make "wwise" "/gone" None None;
             RootCfg.make "unity" "/data/sub" None None]
            (Num.ofZ 12) (Num.ofZ 50) false ["/.git/"%string] [".md"%string]),
         [ResolvedRoot.make "requirements" None "/data" true [];
          ResolvedRoot.make "wwise" None "/gone" false [];
          ResolvedRoot.make "unity" None "/data/sub" true []],
         (ResolvedRoot.make "requirements" None "/data" true []).
  repeat (split; [vm_compute; reflexivity|]). vm_compute; reflexivity.
Qed.

(** C4, amended: a regular file whose size is over the configured ceiling
    is counted by the search in [skippedLargeFiles] and in [scannedFiles],
    and none of its lines is tested; a direct read of the same file with
    that ceiling as [maxBytes], when the read operation does not refuse it,
    returns [truncated = true] and the text decoded from the first
    floor-of-the-ceiling bytes of the file. *)
Theorem large_file_skipped_and_truncated rt api cfg roots filePath stats :
  resolveRoots rt api = Returned (cfg, roots) ->
  stat (fs rt) filePath = Some stats ->
  Stats.isFile stats = true ->
  Num.natGt (Stats.size stats) (PluginCfg.maxFileBytes cfg) = true ->
  (forall root maxHits st,
      scanFile rt cfg root maxHits filePath st
      = (false,
         SearchState.make (SearchState.hits st) (SearchState.scannedFiles st + 1)
           (SearchState.skippedLargeFiles st + 1) (SearchState.matcher st)
           (SearchState.events st ++ [Scanned filePath])))
  /\ (forall rootId relPath r,
         readFileFromRoot rt api rootId relPath (Some (PluginCfg.maxFileBytes cfg))
         = Returned r ->
         ReadResult.absPath r = filePath ->
         ReadResult.truncated r = true
         /\ exists q buf,
              PluginCfg.maxFileBytes cfg = Finite q
              /\ readFile (fs rt) filePath = Some buf
              /\ ReadResult.text r = utf8Decode rt (firstn (Z.to_nat (Qfloor q)) buf)).
Proof.
  intros Hres Hstat Hfile Hbig. split.
  - intros root maxHits st. unfold scanFile, readTextFileLimited.
    rewrite Hstat, Hfile, Hbig. reflexivity.
  - intros rootId relPath r Hread Habs.
    destruct (resolveRoots_inv _ _ _ _ Hres) as [Hcfg _].
    destruct (getPluginCfg_limits_positive _ _ Hcfg) as [Hpos _].
    destruct (findRoot rootId roots) as [root|] eqn:Hfind.
    2:{ rewrite (readFileFromRoot_no_root _ _ _ _ _ _ _ Hres Hfind) in Hread.
        discriminate. }
    destruct (read_returned_inv _ _ _ _ _ _ _ _ _ Hres Hfind Hread)
      as (_ & buf & st & Hb & Hs & _ & ->).
    unfold readValue in *.
    cbn [ReadResult.absPath ReadResult.truncated ReadResult.text] in *.
    rewrite Habs in *.
    rewrite Hstat in Hs. injection Hs as <-.
    rewrite (positiveOr_same _ Hpos). unfold boundedText. rewrite Hbig.
    split; trivial.
    destruct (PluginCfg.maxFileBytes cfg) as [q| | |] eqn:Hq; try discriminate.
    exists q, buf. repeat split; trivial.
    now rewrite firstn_subarrayEnd.
Qed.

Lemma large_file_skipped_and_truncated_witness :
  exists cfg roots root r,
    resolveRoots Demo.rt (Demo.api false) = Returned (cfg, roots)
    /\ scanFile Demo.rt cfg root (Num.ofZ 50) "/data/large.md"
         (initialState (SubstringMatcher "0" false))
       = (false,
          SearchState.make [] 1 1 (SubstringMatcher "0" false)
            [Scanned "/data/large.md"])
    /\ readFileFromRoot Demo.rt (Demo.api false) "requirements" "large.md"
         (Some (PluginCfg.maxFileBytes cfg)) = Returned r
    /\ ReadResult.truncated r = true
    /\ ReadResult.text r = "012345678901"%string.
Proof.
  pose (cfg := PluginCfg.make
            [RootCfg.make "requirements" "/data" None None;
             RootCfg.make "wwise" "/gone" None None;
             RootCfg.make "unity" "/data/sub" None None]
            (Num.ofZ 12) (Num.ofZ 50) false ["/.git/"%string] [".md"%string]).
  pose (roots := [ResolvedRoot.make "requirements" None "/data" true [];
                  ResolvedRoot.make "wwise" None "/gone" false [];
                  ResolvedRoot.make "unity" None "/data/sub" true []]).
  pose (r := ReadResult.make "requirements" "/data/large.md" "large.md" true
               "012345678901").
  assert (Hres : resolveRoots Demo.rt (Demo.api false) = Returned (cfg, roots))
    by (vm_compute; reflexivity).
  assert (Hstat : stat (fs Demo.rt) "/data/large.md" = Some (Stats.make IsFile 20))
    by (vm_compute; reflexivity).
  assert (Hbig : Num.natGt (Stats.size (Stats.make IsFile 20))
                   (PluginCfg.maxFileBytes cfg) = true)
    by (vm_compute; reflexivity).
  assert (Hread : readFileFromRoot Demo.rt (Demo.api false) "requirements" "large.md"
                    (Some (PluginCfg.maxFileBytes cfg)) = Returned r)
    by (vm_compute; reflexivity).
  destruct (large_file_skipped_and_truncated Demo.rt (Demo.api false) cfg roots
              "/data/large.md" (Stats.make IsFile 20) Hres Hstat eq_refl Hbig)
    as [Hscan Hrd].
  destruct (Hrd "requirements"%string "large.md"%string r Hread eq_refl)
    as (Htr & _).
  exists cfg, roots, (ResolvedRoot.make "requirements" None "/data" true []), r.
  split; [exact Hres|]. split; [apply Hscan|]. split; [exact Hread|].
  split; [exact Htr|reflexivity].
Defined.

(** ** Search engine: invariants of the loops *)

Section SearchInvariant.

Variables (rt : Runtime) (cfg : PluginCfg.t) (maxHits : number).
Variable selected : list ResolvedRoot.t.

(** [P false] holds of the state while the loops go on, [P true] of the
    state the function returns from inside a loop; [W] holds of the
    walker of a root and [Q] of the paths it yields. *)
Variable P : bool -> SearchState.t -> Prop.
Variable Q : ResolvedRoot.t -> string -> Prop.
Variable W : ResolvedRoot.t -> Walker.t -> Prop.

Hypothesis W_start : forall root,
  In root selected -> ResolvedRoot.exists_ root = true ->
  W root (walkFiles rt (walkParams cfg root)).

Hypothesis W_next : forall root k w f w',
  In root selected -> W root w ->
  walkNext rt (walkParams cfg root) k w = Some (Some (f, w')) ->
  Q root f /\ W root w'.

Hypothesis P_top : forall st,
  P false st ->
  Num.natGe (List.length (SearchState.hits st)) maxHits = true ->
  P true st.

Hypothesis P_scan : forall root f st,
  In root selected -> Q root f -> P false st ->
  Num.natGe (List.length (SearchState.hits st)) maxHits = false ->
  P (fst (scanFile rt cfg root maxHits f st)) (snd (scanFile rt cfg root maxHits f st)).

Lemma searchFiles_invariant root fuel : forall w st b st',
  In root selected -> W root w -> P false st ->
  searchFiles rt cfg root maxHits fuel w st = Some (b, st') ->
  P b st'.
Proof.
  induction fuel as [|k IH]; intros w st b st' Hin Hw Hp H; simpl in H;
    [discriminate|].
  destruct (walkNext rt (walkParams cfg root) k w) as [[[f w']|]|] eqn:Hnext;
    [| |discriminate].
  - destruct (W_next _ _ _ _ _ Hin Hw Hnext) as [Hq Hw'].
    destruct (Num.natGe (List.length (SearchState.hits st)) maxHits) eqn:Hcap.
    + injection H as <- <-. now apply P_top.
    + pose proof (P_scan _ _ _ Hin Hq Hp Hcap) as Hs.
      destruct (scanFile rt cfg root maxHits f st) as [[|] st1]; simpl in Hs.
      * now injection H as <- <-.
      * eapply IH; eauto.
  - now injection H as <- <-.
Qed.

Lemma searchRoots_invariant fuel : forall l st st',
  incl l selected -> P false st ->
  searchRoots rt cfg maxHits fuel l st = Some st' ->
  exists b, P b st'.
Proof.
  induction l as [|root l IH]; intros st st' Hincl Hp H; simpl in H.
  - injection H as <-. now exists false.
  - assert (Hin : In root selected) by (apply Hincl; now left).
    assert (Hl : incl l selected) by (intros x Hx; apply Hincl; now right).
    destruct (ResolvedRoot.exists_ root) eqn:Hex; simpl in H; [|eauto].
    destruct (searchFiles rt cfg root maxHits fuel _ st) as [[[|] st1]|] eqn:Hf;
      [| |discriminate].
    + injection H as <-. exists true.
      eapply searchFiles_invariant; eauto.
    + apply (IH st1 st' Hl); [|exact H].
      eapply searchFiles_invariant; eauto.
Qed.

End SearchInvariant.

Lemma searchRun_returned_inv rt api params fuel cfg roots st :
  resolveRoots rt api = Returned (cfg, roots) ->
  searchRun rt api params fuel = Some (Returned st) ->
  exists m,
    makeMatcher rt (SearchParams.query params) (SearchParams.regex params)
      (SearchParams.caseSensitive params) = Returned m
    /\ searchRoots rt cfg (effectiveMaxHits (SearchParams.maxHits params) cfg) fuel
         (selectRoots (SearchParams.rootIds params) roots) (initialState m)
       = Some st.
Proof.
  intros Hres H. unfold searchRun in H. rewrite Hres in H.
  destruct (makeMatcher _ _ _ _) as [m|e]; [|discriminate].
  destruct (searchRoots _ _ _ _ _ _) as [st0|] eqn:Hr; [|discriminate].
  injection H as <-. exists m. split; [reflexivity|exact Hr].
Qed.

(** ** The cap on the hits *)

Lemma natGe_zero_positive cap : Num.gtZero cap = true -> Num.natGe 0 cap = false.
Proof.
  destruct cap as [q| | |]; simpl; trivial; try discriminate.
  intros H. now apply negb_true_iff in H.
Qed.

Lemma natGe_false_lt n cap z :
  Num.natGe n cap = false -> numLeZ cap z -> (Z.of_nat n < z)%Z.
Proof.
  destruct cap as [q| | |]; simpl; try discriminate; try tauto.
  intros H Hle. rewrite Zlt_Qlt. unfold Num.ofNat in H.
  apply Qlt_le_trans with q; trivial.
  apply Qnot_le_lt. intros Hq. apply Qle_bool_iff in Hq. congruence.
Qed.

Lemma scanLines_cap rt root filePath cap : forall lines i st,
  Num.natGe (List.length (SearchState.hits st)) cap = false ->
  CapState cap (fst (scanLines rt root filePath cap i lines st))
    (snd (scanLines rt root filePath cap i lines st)).
Proof.
  induction lines as [|line rest IH]; intros i st Hcap; simpl; trivial.
  destruct (applyMatcher (SearchState.matcher st) line) as [[|] m']; simpl.
  - destruct (Num.natGe (List.length (SearchState.hits st ++ [_])) cap) eqn:Hge.
    + simpl. split; trivial. do 3 eexists. repeat split; eauto.
    + apply IH. exact Hge.
  - apply IH. exact Hcap.
Qed.

Lemma scanFile_cap rt cfg root cap filePath st :
  Num.natGe (List.length (SearchState.hits st)) cap = false ->
  CapState cap (fst (scanFile rt cfg root cap filePath st))
    (snd (scanFile rt cfg root cap filePath st)).
Proof.
  intros Hcap. unfold scanFile.
  destruct (readTextFileLimited rt filePath (PluginCfg.maxFileBytes cfg)).
  - now apply scanLines_cap.
  - exact Hcap.
Qed.

Lemma searchRoots_cap rt cfg cap fuel selected st st' :
  Num.natGe (List.length (SearchState.hits st)) cap = false ->
  searchRoots rt cfg cap fuel selected st = Some st' ->
  exists b, CapState cap b st'.
Proof.
  intros Hcap H.
  eapply (searchRoots_invariant rt cfg cap selected (CapState cap)
            (fun _ _ => True) (fun _ _ => True)); eauto.
  - intros st0 Hf Ht. simpl in Hf. congruence.
  - intros root f st0 _ _ _ Hc. now apply scanFile_cap.
  - apply incl_refl.
Qed.

Lemma effectiveMaxHits_positive api cfg maxHits :
  getPluginCfg api = Returned cfg ->
  Num.gtZero (effectiveMaxHits maxHits cfg) = true.
Proof.
  intros H. apply positiveOr_positive.
  now destruct (getPluginCfg_limits_positive _ _ H).
Qed.

(** C2, as stated, fails: with [maxHits] one half, a positive number, the
    search returns one hit, more than the cap. *)
Lemma search_exceeds_fractional_cap_counterexample :
  exists cfg roots r,
    resolveRoots Demo.rt (Demo.api false) = Returned (cfg, roots)
    /\ effectiveMaxHits (Some (Finite (1 # 2))) cfg = Finite (1 # 2)
    /\ searchAcrossRoots Demo.rt (Demo.api false)
         (Demo.search "a" None (Some (Finite (1 # 2)))) 50 = Some (Returned r)
    /\ (1 # 2 < Num.ofNat (List.length (SearchResult.hits r)))%Q.
Proof.
  exists (PluginCfg.make
            [RootCfg.make "requirements" "/data" None None;
             RootCfg.make "wwise" "/gone" None None;
             RootCfg.make "unity" "/data/sub" None None]
            (Num.ofZ 12) (Num.ofZ 50) false ["/.git/"%string] [".md"%string]),
         [ResolvedRoot.make "requirements" None "/data" true [];
          ResolvedRoot.make "wwise" None "/gone" false [];
          ResolvedRoot.make "unity" None "/data/sub" true []],
         (SearchResult.make [SearchHit.make "requirements" "a.md" 1 "ba"] 1 0).
  repeat (split; [vm_compute; reflexivity|]). vm_compute. reflexivity.
Qed.

(** C2, amended: the number of hits a search returns never exceeds a whole
    number that the effective cap (the caller's [maxHits] when it is a
    positive number, else the configured default) does not exceed; and when
    the cap is reached the search has returned at once: the last thing it
    did was to append the last hit. *)
Theorem search_hits_bounded_and_stops_at_cap rt api params fuel cfg roots st :
  resolveRoots rt api = Returned (cfg, roots) ->
  searchRun rt api params fuel = Some (Returned st) ->
  let cap := effectiveMaxHits (SearchParams.maxHits params) cfg in
  cap = match SearchParams.maxHits params with
        | Some n => if Num.gtZero n then n else PluginCfg.maxHits cfg
        | None => PluginCfg.maxHits cfg
        end
  /\ (forall z, numLeZ cap z -> (Z.of_nat (List.length (SearchState.hits st)) <= z)%Z)
  /\ (Num.natGe (List.length (SearchState.hits st)) cap = true ->
      exists hs h ev,
        SearchState.hits st = hs ++ [h]
        /\ SearchState.events st = ev ++ [Appended h]).
Proof.
  intros Hres Hrun cap. split; [reflexivity|].
  destruct (searchRun_returned_inv _ _ _ _ _ _ _ Hres Hrun) as (m & _ & Hroots).
  destruct (resolveRoots_inv _ _ _ _ Hres) as [Hcfg _].
  pose proof (effectiveMaxHits_positive _ _ (SearchParams.maxHits params) Hcfg) as Hpos.
  fold cap in Hroots, Hpos.
  destruct (searchRoots_cap rt cfg cap fuel _ (initialState m) st
              (natGe_zero_positive _ Hpos) Hroots)
    as [[|] Hb]; simpl in Hb.
  - destruct Hb as (Hge & hs & h & ev & Hh & He & Hlt). split.
    + intros z Hz. rewrite Hh, length_app. simpl.
      pose proof (natGe_false_lt _ _ _ Hlt Hz). lia.
    + intros _. eauto.
  - split.
    + intros z Hz. pose proof (natGe_false_lt _ _ _ Hb Hz). lia.
    + congruence.
Qed.

Lemma search_hits_bounded_and_stops_at_cap_witness :
  exists st hs h ev,
    searchRun Demo.rt (Demo.api false) (Demo.search "a" None (Some (Num.ofZ 3))) 50
    = Some (Returned st)
    /\ (Z.of_nat (List.length (SearchState.hits st)) <= 3)%Z
    /\ SearchState.hits st = hs ++ [h]
    /\ SearchState.events st = ev ++ [Appended h].
Proof.
  pose (cfg := PluginCfg.make
            [RootCfg.make "requirements" "/data" None None;
             RootCfg.make "wwise" "/gone" None None;
             RootCfg.make "unity" "/data/sub" None None]
            (Num.ofZ 12) (Num.ofZ 50) false ["/.git/"%string] [".md"%string]).
  pose (roots := [ResolvedRoot.make "requirements" None "/data" true [];
                  ResolvedRoot.make "wwise" None "/gone" false [];
                  ResolvedRoot.make "unity" None "/data/sub" true []]).
  assert (Hres : resolveRoots Demo.rt (Demo.api false) = Returned (cfg, roots))
    by (vm_compute; reflexivity).
  destruct (searchRun Demo.rt (Demo.api false)
              (Demo.search "a" None (Some (Num.ofZ 3))) 50) as [[st|]|] eqn:Hrun;
    [|vm_compute in Hrun; discriminate Hrun|vm_compute in Hrun; discriminate Hrun].
  destruct (search_hits_bounded_and_stops_at_cap Demo.rt (Demo.api false)
              (Demo.search "a" None (Some (Num.ofZ 3))) 50 cfg roots st Hres Hrun)
    as (_ & Hbound & Hstop).
  assert (Hge : Num.natGe (List.length (SearchState.hits st))
                  (effectiveMaxHits
                     (SearchParams.maxHits (Demo.search "a" None (Some (Num.ofZ 3))))
                     cfg) = true).
  { vm_compute in Hrun. injection Hrun as <-. vm_compute. reflexivity. }
  destruct (Hstop Hge) as (hs & h & ev & Hh & He).
  exists st, hs, h, ev. split; [reflexivity|]. split; [|split; trivial].
  apply Hbound. vm_compute. discriminate.
Defined.

(** ** Event heuristic *)

Lemma hasHits_catchNull_iff (x : Result SearchResult.t) :
  hasHits (catchNull x) = true <-> exists r, x = Returned r /\ SearchResult.hits r <> [].
Proof.
  destruct x as [r|e]; simpl.
  - split.
    + intros H. exists r. split; trivial.
      destruct (SearchResult.hits r); [discriminate|congruence].
    + intros (r' & Hr & Hne). injection Hr as <-.
      now destruct (SearchResult.hits r).
  - split; [discriminate|]. intros (r & Hr & _). discriminate.
Qed.

(** C7, as stated, fails: an event name that is not empty and is all
    white space makes the tool throw before any search is run. *)
Lemma check_event_blank_name_counterexample :
  " "%string <> EmptyString
  /\ forall fuel,
       audio_check_event Demo.rt (Demo.api false) (Some " "%string) fuel
       = Some (Threw EventNameRequired).
Proof. split; [discriminate|]. intros fuel. reflexivity. Qed.

(** C7, amended: for every [eventName] that is not empty after trimming
    white space, [checkEvent] returns whatever the sub-searches do: the
    unscoped fallback search is run whatever the three scoped searches
    gave, a sub-search that raises gives an absent branch result, and each
    derived boolean is true exactly when its scoped search returned at
    least one hit. *)
Theorem check_event_runs_all_branches rt api eventName fuel req wwise unity fallback :
  JS.trim eventName <> EmptyString ->
  searchAcrossRoots rt api (plainSearch eventName (Some ["requirements"%string])) fuel
    = Some req ->
  searchAcrossRoots rt api (plainSearch (nameAttr eventName) (Some ["wwise"%string])) fuel
    = Some wwise ->
  searchAcrossRoots rt api (plainSearch eventName (Some ["unity"%string])) fuel
    = Some unity ->
  searchAcrossRoots rt api (plainSearch eventName None) fuel = Some fallback ->
  exists d,
    audio_check_event rt api (Some eventName) fuel = Some (Returned d)
    /\ EventDetails.eventName d = eventName
    /\ EventDetails.checks d
       = EventChecks.make (catchNull req) (catchNull wwise) (catchNull unity)
           (catchNull fallback)
    /\ (Interpretation.requirementsMentioned (EventDetails.interpretation d) = true
        <-> exists r, req = Returned r /\ SearchResult.hits r <> [])
    /\ (Interpretation.wwiseProbablyDefined (EventDetails.interpretation d) = true
        <-> exists r, wwise = Returned r /\ SearchResult.hits r <> [])
    /\ (Interpretation.unityReferenced (EventDetails.interpretation d) = true
        <-> exists r, unity = Returned r /\ SearchResult.hits r <> []).
Proof.
  intros Hname Hreq Hwwise Hunity Hfb.
  unfold audio_check_event. cbn [stringOrEmpty].
  destruct (JS.isEmpty (JS.trim eventName)) eqn:He.
  { apply isEmpty_true_iff in He. contradiction. }
  rewrite Hreq, Hwwise, Hunity, Hfb. cbn [caught option_map].
  eexists. split; [reflexivity|].
  cbn [EventDetails.eventName EventDetails.checks EventDetails.interpretation
       Interpretation.requirementsMentioned Interpretation.wwiseProbablyDefined
       Interpretation.unityReferenced].
  split; [reflexivity|]. split; [reflexivity|].
  split; [|split]; apply hasHits_catchNull_iff.
Qed.

Lemma check_event_runs_all_branches_witness :
  exists d,
    audio_check_event Demo.rt (Demo.api false) (Some "alpha"%string) 50
    = Some (Returned d)
    /\ EventDetails.eventName d = "alpha"%string.
Proof.
  destruct (searchAcrossRoots Demo.rt (Demo.api false)
              (plainSearch "alpha" (Some ["requirements"%string])) 50)
    as [req|] eqn:Hreq; [|vm_compute in Hreq; discriminate Hreq].
  destruct (searchAcrossRoots Demo.rt (Demo.api false)
              (plainSearch (nameAttr "alpha") (Some ["wwise"%string])) 50)
    as [wwise|] eqn:Hwwise; [|vm_compute in Hwwise; discriminate Hwwise].
  destruct (searchAcrossRoots Demo.rt (Demo.api false)
              (plainSearch "alpha" (Some ["unity"%string])) 50)
    as [unity|] eqn:Hunity; [|vm_compute in Hunity; discriminate Hunity].
  destruct (searchAcrossRoots Demo.rt (Demo.api false)
              (plainSearch "alpha" None) 50)
    as [fallback|] eqn:Hfb; [|vm_compute in Hfb; discriminate Hfb].
  assert (Hname : JS.trim "alpha" <> EmptyString) by (vm_compute; discriminate).
  destruct (check_event_runs_all_branches Demo.rt (Demo.api false) "alpha" 50
              req wwise unity fallback Hname Hreq Hwwise Hunity Hfb)
    as (d & Hd & Hn & _).
  exists d. split; [exact Hd|exact Hn].
Defined.

(** On the three roots of the example, of which the one named "wwise" is
    missing on disk, the event "alpha" is found in the requirements and in
    the Unity root. *)
Example check_event_alpha :
  option_map
    (fun r =>
       match r with
       | Returned d => Some (EventDetails.interpretation d)
       | Threw _ => None
       end)
    (audio_check_event Demo.rt (Demo.api false) (Some "alpha"%string) 50)
  = Some (Some (Interpretation.make true false true)).
Proof. vm_compute. reflexivity. Qed.

(** ** Walker *)

Section WalkerInvariant.

Variables (rt : Runtime) (p : WalkParams.t).

Let follow := WalkParams.followSymlinks p.
Let rootDir := WalkParams.rootDir p.
Let rootReal := realOrSelf rt (WalkParams.rootDir p).

Lemma walkFiles_ok : WalkerOk rt p (walkFiles rt p).
Proof.
  unfold WalkerOk, walkFiles. simpl. repeat split.
  - repeat constructor.
  - contradiction.
  - contradiction.
Qed.

Lemma visitStat_full full isDir isFile v :
  visitStat p full isDir isFile = v ->
  match v with
  | Skip => True
  | Push f | Yield f => f = full
  end.
Proof.
  unfold visitStat. intros <-.
  destruct isDir; trivial. destruct isFile; trivial.
  now destruct (negb (extOk full (WalkParams.includeExtensions p))).
Qed.

(** An entry that [visitEntry] does not skip is link-checked, and the path
    pushed or yielded is the path of the entry. *)
Lemma visitEntry_checked d e :
  match visitEntry rt p rootReal d e with
  | Skip => True
  | Push f | Yield f => f = entryPath d e /\ LinkChecked rt follow rootReal d e
  end.
Proof.
  unfold visitEntry. fold (entryPath d e).
  destruct (shouldExclude _ _ _); trivial.
  destruct (Dirent.isSymbolicLink e) eqn:Hlink.
  - fold follow. destruct follow eqn:Hf; simpl; trivial.
    destruct (realpath (fs rt) (entryPath d e)) as [real|] eqn:Hreal; trivial.
    destruct (JS.isEmpty real); simpl; trivial.
    destruct (isWithinRoot (cwd rt) rootReal real) eqn:Hin; simpl; trivial.
    destruct (stat (fs rt) (entryPath d e)) as [st|]; trivial.
    pose proof (visitStat_full (entryPath d e) (Stats.isDirectory st)
                  (Stats.isFile st) _ eq_refl) as Hv.
    assert (Hc : LinkChecked rt true rootReal d e).
    { intros _. split; trivial. exists real. now split. }
    destruct (visitStat p (entryPath d e) _ _); trivial; now split.
  - pose proof (visitStat_full (entryPath d e) (Dirent.isDirectory e)
                  (Dirent.isFile e) _ eq_refl) as Hv.
    assert (Hc : LinkChecked rt follow rootReal d e).
    { intros H. congruence. }
    destruct (visitStat p (entryPath d e) _ _); trivial; now split.
Qed.

(** A step of the generator keeps the invariant, and what it yields is a
    path the walker can yield. *)
Lemma walkNext_ok fuel : forall w f w',
  WalkerOk rt p w ->
  walkNext rt p fuel w = Some (Some (f, w')) ->
  Yielded rt follow rootDir rootReal f /\ WalkerOk rt p w'.
Proof.
  induction fuel as [|k IH]; intros w f w' Hw H; simpl in H; [discriminate|].
  destruct Hw as (Hrr & Hstack & Hents).
  fold rootReal rootDir follow in Hrr, Hstack, Hents.
  destruct (Walker.entries w) as [|ent rest] eqn:He.
  - destruct (Walker.stack w) as [|dir stack] eqn:Hs; [discriminate|].
    inversion Hstack as [|? ? Hdir Hrest]; subst.
    assert (Hempty : WalkerOk rt p (Walker.make (Walker.rootReal w) stack (Walker.dir w) [])).
    { split; [exact Hrr|]. split; [exact Hrest|]. simpl. contradiction. }
    destruct (JS.isEmpty dir); [exact (IH _ _ _ Hempty H)|].
    destruct (readdir (fs rt) dir) as [entries|] eqn:Hrd;
      [|exact (IH _ _ _ Hempty H)].
    refine (IH _ _ _ _ H).
    split; [exact Hrr|]. split; [exact Hrest|]. simpl. eauto.
  - destruct (Hents ent (or_introl eq_refl)) as (Hreach & es & Hrd & Hin).
    pose proof (visitEntry_checked (Walker.dir w) ent) as Hv.
    rewrite Hrr in H.
    assert (Hrest : forall e, In e rest ->
               Reach rt follow rootDir rootReal (Walker.dir w)
               /\ exists es, readdir (fs rt) (Walker.dir w) = Some es /\ In e es).
    { intros e Hin'. apply Hents. now right. }
    destruct (visitEntry rt p rootReal (Walker.dir w) ent) as [|full|full].
    + refine (IH _ _ _ _ H). split; [reflexivity|]. split; [exact Hstack|exact Hrest].
    + destruct Hv as [-> Hc]. refine (IH _ _ _ _ H).
      split; [reflexivity|]. split; [|exact Hrest].
      simpl. constructor; [|exact Hstack]. econstructor; eauto.
    + destruct Hv as [-> Hc]. injection H as <- <-. split.
      * exists (Walker.dir w), es, ent.
        split; [exact Hreach|]. split; [exact Hrd|]. split; [exact Hin|].
        split; [exact Hc|reflexivity].
      * split; [reflexivity|]. split; [exact Hstack|exact Hrest].
Qed.

End WalkerInvariant.






(** ** Where the hits come from *)

Section HitProvenance.

Variables (rt : Runtime) (cfg : PluginCfg.t) (maxHits : number).
Variable selected : list ResolvedRoot.t.
Variable Q : ResolvedRoot.t -> string -> Prop.

Lemma scanLines_hits_from root f : forall lines i st,
  In root selected -> Q root f ->
  Forall (HitFrom rt selected Q) (SearchState.hits st) ->
  Forall (HitFrom rt selected Q)
    (SearchState.hits (snd (scanLines rt root f maxHits i lines st))).
Proof.
  induction lines as [|line rest IH]; intros i st Hin Hq Hst; simpl; trivial.
  destruct (applyMatcher (SearchState.matcher st) line) as [[|] m']; simpl.
  - assert (Hall : Forall (HitFrom rt selected Q)
                     (SearchState.hits st ++ [makeHit rt root f i line])).
    { apply Forall_app. split; trivial. constructor; [|constructor].
      exists root, f. repeat split; trivial. }
    destruct (Num.natGe _ maxHits); simpl; trivial.
    apply IH; trivial.
  - apply IH; trivial.
Qed.

Lemma scanFile_hits_from root f st :
  In root selected -> Q root f ->
  Forall (HitFrom rt selected Q) (SearchState.hits st) ->
  Forall (HitFrom rt selected Q)
    (SearchState.hits (snd (scanFile rt cfg root maxHits f st))).
Proof.
  intros Hin Hq Hst. unfold scanFile.
  destruct (readTextFileLimited rt f (PluginCfg.maxFileBytes cfg)); trivial.
  now apply scanLines_hits_from.
Qed.

End HitProvenance.

(** Every hit of a search comes from a path its root's walker can yield. *)
Lemma searchRoots_hits_yielded rt cfg maxHits fuel selected st st' :
  Forall (HitFrom rt selected (YieldedIn rt cfg)) (SearchState.hits st) ->
  searchRoots rt cfg maxHits fuel selected st = Some st' ->
  Forall (HitFrom rt selected (YieldedIn rt cfg)) (SearchState.hits st').
Proof.
  intros Hst H.
  destruct (searchRoots_invariant rt cfg maxHits selected
              (fun _ s => Forall (HitFrom rt selected (YieldedIn rt cfg))
                            (SearchState.hits s))
              (YieldedIn rt cfg)
              (fun root w => WalkerOk rt (walkParams cfg root) w))
    with (fuel := fuel) (l := selected) (st := st) (st' := st') as [b Hb]; trivial.
  - intros root _ _. apply walkFiles_ok.
  - intros root k w f w' _ Hw Hnext.
    exact (walkNext_ok rt (walkParams cfg root) k w f w' Hw Hnext).
  - intros root f st0 Hin Hq Hp _. now apply scanFile_hits_from.
  - apply incl_refl.
Qed.

(** ** Provenance of the hits *)

(** Every hit of a search carries the id of a selected root. *)
Lemma hits_from_selected rt api params fuel cfg roots st h :
  resolveRoots rt api = Returned (cfg, roots) ->
  searchRun rt api params fuel = Some (Returned st) ->
  In h (SearchState.hits st) ->
  exists root,
    In root (selectRoots (SearchParams.rootIds params) roots)
    /\ SearchHit.rootId h = ResolvedRoot.id root.
Proof.
  intros Hres Hrun Hin.
  destruct (searchRun_returned_inv _ _ _ _ _ _ _ Hres Hrun) as (m & _ & Hroots).
  pose proof (searchRoots_hits_yielded rt cfg _ fuel _ (initialState m) st
                (Forall_nil _) Hroots) as Hall.
  rewrite Forall_forall in Hall.
  destruct (Hall h Hin) as (root & f & Hsel & _ & Hid & _).
  now exists root.
Qed.

Lemma demo_dirs_inv d es :
  readdir (fs Demo.rt) d = Some es ->
  (d = "/data"%string
   /\ es = [Demo.fileEnt "a.md"; Demo.fileEnt "big..md"; Demo.fileEnt "large.md";
            Demo.dirEnt "sub"; Demo.linkEnt "link.md"; Demo.linkEnt "out"])
  \/ (d = "/data/sub"%string /\ es = [Demo.fileEnt "b.md"]).
Proof.
  cbn [readdir fs Demo.rt Demo.demoFs]. unfold Demo.lookup, Demo.dirs.
  cbn [find fst].
  destruct (String.eqb_spec "/data" d) as [<-|_].
  - cbn [option_map snd]. intros H. injection H as <-. left. now split.
  - destruct (String.eqb_spec "/data/sub" d) as [<-|_].
    + cbn [option_map snd]. intros H. injection H as <-. right. now split.
    + discriminate.
Qed.

(** ** Path containment on canonical paths *)

Lemma string_append_assoc (a b c : string) :
  ((a ++ b) ++ c)%string = (a ++ (b ++ c))%string.
Proof. induction a as [|x a IH]; simpl; [reflexivity|now rewrite IH]. Qed.

Lemma string_append_nil_r (a : string) : (a ++ EmptyString)%string = a.
Proof. induction a as [|x a IH]; simpl; [reflexivity|now rewrite IH]. Qed.

Lemma splitOn_noSlash s :
  hasSlash s = false -> JS.splitOn NodePath.slash s = [s].
Proof.
  induction s as [|c s IH]; simpl; trivial.
  intros H. apply orb_false_iff in H. destruct H as [Hc Hs].
  rewrite Hc, (IH Hs). reflexivity.
Qed.

Lemma splitOn_app_sep s t :
  hasSlash s = false ->
  JS.splitOn NodePath.slash (s ++ String NodePath.slash t)%string
  = s :: JS.splitOn NodePath.slash t.
Proof.
  induction s as [|c s IH]; simpl.
  - intros _. reflexivity.
  - intros H. apply orb_false_iff in H. destruct H as [Hc Hs].
    rewrite Hc, (IH Hs). reflexivity.
Qed.

Lemma joinSegments_cons x y l :
  NodePath.joinSegments (x :: y :: l)
  = (x ++ String NodePath.slash (NodePath.joinSegments (y :: l)))%string.
Proof. reflexivity. Qed.

(** Splitting the join of segments without separators gives back the
    segments. *)
Lemma splitOn_joinSegments l :
  l <> [] ->
  Forall (fun s => hasSlash s = false) l ->
  JS.splitOn NodePath.slash (NodePath.joinSegments l) = l.
Proof.
  induction l as [|x l IH]; [congruence|]. intros _ Hall.
  inversion Hall as [|? ? Hx Hl]; subst.
  destruct l as [|y l].
  - simpl. now apply splitOn_noSlash.
  - rewrite joinSegments_cons, splitOn_app_sep by trivial.
    f_equal. apply IH; [discriminate|trivial].
Qed.

Lemma canonical_as_join segs :
  segs <> [] -> canonical segs = NodePath.joinSegments (EmptyString :: segs).
Proof. destruct segs; [congruence|reflexivity]. Qed.

Lemma ValidSegment_noSlash segs :
  Forall ValidSegment segs -> Forall (fun s => hasSlash s = false) segs.
Proof. apply Forall_impl. now intros s [H _]. Qed.

Lemma splitOn_canonical segs :
  Forall ValidSegment segs ->
  JS.splitOn NodePath.slash (canonical segs)
  = EmptyString :: match segs with [] => [EmptyString] | _ => segs end.
Proof.
  intros Hv. destruct segs as [|x l]; [reflexivity|].
  rewrite canonical_as_join by discriminate.
  apply splitOn_joinSegments; [discriminate|].
  constructor; trivial. now apply ValidSegment_noSlash.
Qed.

Lemma filter_valid segs :
  Forall ValidSegment segs ->
  filter (fun s => negb (JS.isEmpty s)) segs = segs.
Proof.
  induction 1 as [|x l Hx _ IH]; simpl; trivial.
  destruct Hx as (_ & Hne & _). destruct x; [congruence|]. simpl. now rewrite IH.
Qed.

Lemma segmentsOf_canonical segs :
  Forall ValidSegment segs -> NodePath.segmentsOf (canonical segs) = segs.
Proof.
  intros Hv. unfold NodePath.segmentsOf. rewrite splitOn_canonical by trivial.
  destruct segs as [|x l]; [reflexivity|].
  transitivity (filter (fun s => negb (JS.isEmpty s)) (x :: l));
    [reflexivity|now apply filter_valid].
Qed.

(** [normalizeString] keeps the valid segments of a path and drops the
    empty ones. *)
Lemma normalizeSegments_valid allow : forall l acc,
  Forall (fun s => s = EmptyString \/ ValidSegment s) l ->
  NodePath.normalizeSegments allow acc l
  = rev acc ++ filter (fun s => negb (JS.isEmpty s)) l.
Proof.
  induction l as [|x l IH]; intros acc Hall; simpl.
  - now rewrite app_nil_r.
  - inversion Hall as [|? ? Hx Hl]; subst.
    destruct Hx as [->|(Hs & Hne & Hd & Hdd)].
    + simpl. now apply IH.
    + destruct (JS.isEmpty x) eqn:He.
      { apply isEmpty_true_iff in He. congruence. }
      simpl. apply String.eqb_neq in Hd, Hdd. rewrite Hd, Hdd.
      rewrite IH by trivial. simpl. now rewrite <- app_assoc.
Qed.

Lemma normalizeString_segments allow l :
  l <> [] ->
  Forall (fun s => s = EmptyString \/ ValidSegment s) l ->
  NodePath.normalizeString (NodePath.joinSegments l) allow
  = NodePath.joinSegments (filter (fun s => negb (JS.isEmpty s)) l).
Proof.
  intros Hne Hall. unfold NodePath.normalizeString.
  rewrite splitOn_joinSegments; trivial.
  - now rewrite normalizeSegments_valid.
  - eapply Forall_impl; [|exact Hall]. intros s [->|[H _]]; trivial.
Qed.

Lemma canonical_absolute segs : NodePath.isAbsolute (canonical segs) = true.
Proof. reflexivity. Qed.

Lemma joinSegments_app_empty l :
  l <> [] ->
  (NodePath.joinSegments l ++ NodePath.sep)%string
  = NodePath.joinSegments (l ++ [EmptyString]).
Proof.
  induction l as [|x l IH]; [congruence|]. intros _.
  destruct l as [|y l].
  - simpl. reflexivity.
  - change ((x :: y :: l) ++ [EmptyString]) with (x :: y :: (l ++ [EmptyString])).
    rewrite !joinSegments_cons.
    change (y :: l ++ [EmptyString]) with ((y :: l) ++ [EmptyString]).
    rewrite <- IH by discriminate.
    now rewrite string_append_assoc.
Qed.

(** A canonical path resolves to itself. *)
Lemma resolve_canonical cwd segs :
  Forall ValidSegment segs -> NodePath.resolve cwd [canonical segs] = canonical segs.
Proof.
  intros Hv. destruct segs as [|x l]; [reflexivity|].
  unfold NodePath.resolve. cbn [rev app NodePath.resolveFrom].
  change (JS.isEmpty (canonical (x :: l))) with false.
  change (NodePath.isAbsolute (canonical (x :: l))) with true. cbv iota.
  unfold canonical at 2. f_equal.
  assert (Hj : (canonical (x :: l) ++ NodePath.sep ++ EmptyString)%string
               = NodePath.joinSegments ((EmptyString :: x :: l) ++ [EmptyString])).
  { rewrite <- joinSegments_app_empty by discriminate. reflexivity. }
  rewrite Hj, normalizeString_segments.
  - rewrite filter_app.
    transitivity (NodePath.joinSegments
                    (filter (fun s => negb (JS.isEmpty s)) (x :: l) ++ []));
      [reflexivity|].
    now rewrite app_nil_r, filter_valid.
  - discriminate.
  - change ((EmptyString :: x :: l) ++ [EmptyString])
      with ([EmptyString] ++ (x :: l) ++ [EmptyString]).
    apply Forall_app. split; [constructor; [now left|constructor]|].
    apply Forall_app. split.
    + eapply Forall_impl; [|exact Hv]. intros s H. now right.
    + constructor; [now left|constructor].
Qed.

Lemma stripCommon_spec : forall a b,
  exists common,
    a = common ++ fst (NodePath.stripCommon a b)
    /\ b = common ++ snd (NodePath.stripCommon a b)
    /\ (fst (NodePath.stripCommon a b) = [] <-> exists rest, b = a ++ rest).
Proof.
  induction a as [|x a IH]; intros b.
  - exists []. simpl. repeat split; eauto.
  - destruct b as [|y b].
    + exists []. simpl. repeat split; try discriminate.
      intros [rest H]. discriminate.
    + simpl. destruct (String.eqb_spec x y) as [->|Hne].
      * destruct (IH b) as (common & Ha & Hb & Hiff).
        exists (y :: common). simpl. split; [congruence|]. split; [congruence|].
        rewrite Hiff. split; intros [rest H]; exists rest; congruence.
      * exists []. simpl. repeat split; try discriminate.
        intros [rest H]. congruence.
Qed.

(** The relative path made of valid segments only is not empty, is not
    "..", does not start with "../" and is not absolute. *)
Lemma joinSegments_valid_inside s rest :
  ValidSegment s ->
  let rel := NodePath.joinSegments (s :: rest) in
  JS.isEmpty rel = false
  /\ String.eqb rel NodePath.dotdot = false
  /\ JS.startsWith rel (NodePath.dotdot ++ NodePath.sep)%string = false
  /\ NodePath.isAbsolute rel = false.
Proof.
  intros (Hs & Hne & Hd & Hdd) rel.
  assert (Hrel : exists t, rel = (s ++ t)%string
                           /\ (t = EmptyString
                               \/ exists u, t = String NodePath.slash u)).
  { unfold rel. destruct rest as [|y l].
    - exists EmptyString. split; [|now left].
      cbn [NodePath.joinSegments String.concat]. now rewrite string_append_nil_r.
    - rewrite joinSegments_cons. eexists. split; [reflexivity|]. right.
      eexists. reflexivity. }
  destruct Hrel as (t & -> & Ht).
  destruct s as [|c1 s]; [congruence|].
  simpl in Hs. apply orb_false_iff in Hs. destruct Hs as [Hc1 Hs].
  split; [reflexivity|].
  assert (Hdot : forall c, Ascii.eqb c NodePath.slash = false ->
                           c = NodePath.dot \/ c <> NodePath.dot).
  { intros c _. destruct (Ascii.eqb_spec c NodePath.dot); auto. }
  split; [|split].
  - apply String.eqb_neq. intros H.
    destruct s as [|c2 s].
    + destruct Ht as [->|[u ->]]; simpl in H; [discriminate H|].
      injection H as H1 H2. discriminate H2.
    + simpl in Hs. apply orb_false_iff in Hs. destruct Hs as [Hc2 Hs].
      simpl in H. injection H as H1 H2 H3.
      destruct s as [|c3 s]; simpl in H3.
      * subst c1 c2. now apply Hdd.
      * discriminate H3.
  - unfold JS.startsWith. destruct (String.prefix _ _) eqn:Hp; trivial.
    apply prefix_iff_append in Hp. destruct Hp as [v Hv]. exfalso.
    simpl in Hv. injection Hv as H1 Hv.
    destruct s as [|c2 s].
    + destruct Ht as [->|[u ->]]; simpl in Hv; [discriminate Hv|].
      injection Hv as H2 _. discriminate H2.
    + simpl in Hs. apply orb_false_iff in Hs. destruct Hs as [Hc2 Hs].
      simpl in Hv. injection Hv as H2 Hv.
      destruct s as [|c3 s].
      * subst c1 c2. now apply Hdd.
      * simpl in Hs. apply orb_false_iff in Hs. destruct Hs as [Hc3 _].
        simpl in Hv. injection Hv as H3 _. subst c3.
        vm_compute in Hc3. discriminate Hc3.
  - simpl. exact Hc1.
Qed.

(** A relative path that climbs is ".." or starts with "../". *)
Lemma joinSegments_dotdot_outside l :
  let rel := NodePath.joinSegments (NodePath.dotdot :: l) in
  JS.isEmpty rel = false
  /\ (String.eqb rel NodePath.dotdot
      || JS.startsWith rel (NodePath.dotdot ++ NodePath.sep)%string) = true.
Proof.
  destruct l as [|y l]; cbv zeta.
  - split; reflexivity.
  - rewrite joinSegments_cons. split; [reflexivity|].
    apply orb_true_iff. right. unfold JS.startsWith.
    apply prefix_iff_append. eexists. reflexivity.
Qed.

Lemma isWithinRoot_canonical cwd rootSegs candSegs :
  Forall ValidSegment rootSegs ->
  Forall ValidSegment candSegs ->
  isWithinRoot cwd (canonical rootSegs) (canonical candSegs) = true
  <-> exists rest, candSegs = rootSegs ++ rest.
Proof.
  intros Hr Hc. unfold isWithinRoot, NodePath.relative.
  destruct (String.eqb_spec (canonical rootSegs) (canonical candSegs)) as [Heq|Hne].
  { simpl. split; trivial. intros _. exists [].
    rewrite app_nil_r. rewrite <- (segmentsOf_canonical _ Hr), Heq.
    now rewrite segmentsOf_canonical. }
  rewrite !resolve_canonical by trivial.
  destruct (String.eqb_spec (canonical rootSegs) (canonical candSegs)) as [Heq|_];
    [contradiction|].
  rewrite !segmentsOf_canonical by trivial.
  destruct (stripCommon_spec rootSegs candSegs) as (common & Ha & Hb & Hiff).
  destruct (NodePath.stripCommon rootSegs candSegs) as [up down].
  cbn [fst snd] in *.
  rewrite <- Hiff.
  destruct up as [|u up].
  - cbn [map app]. destruct down as [|s rest].
    + split; trivial.
    + assert (Hs : ValidSegment s).
      { rewrite Hb in Hc. apply Forall_app in Hc. destruct Hc as [_ Hc].
        now inversion Hc. }
      destruct (joinSegments_valid_inside s rest Hs) as (H1 & H2 & H3 & H4).
      rewrite H1, H2, H3, H4. simpl. split; trivial.
  - cbn [map app].
    destruct (joinSegments_dotdot_outside (map (fun _ => NodePath.dotdot) up ++ down))
      as [H1 H2].
    rewrite H1, H2. split; discriminate.
Qed.

(** On canonical paths, [isWithinRoot] answers true exactly when the
    segments of the root are the leading segments of the candidate: a
    directory whose name only starts like the root's is outside, and the
    working directory of the process plays no part. *)
Theorem isWithinRoot_iff_segment_prefix cwd rootSegs candSegs :
  Forall ValidSegment rootSegs ->
  Forall ValidSegment candSegs ->
  isWithinRoot cwd (canonical rootSegs) (canonical candSegs) = true
  <-> exists rest, candSegs = rootSegs ++ rest.
Proof. apply isWithinRoot_canonical. Qed.

Ltac differ := let H := fresh in intros H; vm_compute in H; discriminate H.

Ltac valid_segment :=
  split; [vm_compute; reflexivity|split; [differ|split; differ]].

Ltac valid_segments := repeat (constructor; [valid_segment|]); constructor.

Lemma isWithinRoot_iff_segment_prefix_witness :
  isWithinRoot "/work" "/data" "/data/sub/b.md" = true
  /\ isWithinRoot "/work" "/data" "/data2/x" = false.
Proof.
  assert (H1 : Forall ValidSegment ["data"%string]) by valid_segments.
  assert (H2 : Forall ValidSegment ["data"; "sub"; "b.md"]%string) by valid_segments.
  assert (H3 : Forall ValidSegment ["data2"; "x"]%string) by valid_segments.
  split.
  - apply (isWithinRoot_iff_segment_prefix "/work" ["data"%string]
             ["data"; "sub"; "b.md"]%string H1 H2).
    now exists ["sub"; "b.md"]%string.
  - destruct (isWithinRoot "/work" "/data" "/data2/x") eqn:E; trivial.
    apply (isWithinRoot_iff_segment_prefix "/work" ["data"%string]
             ["data2"; "x"]%string H1 H3) in E.
    destruct E as [rest E]. discriminate E.
Defined.

(** ** Coherence from elementary facts *)








(** ** Containment of the hits *)








(** ** Line matcher *)

(** C5 fails on the code in regex mode: the pattern is compiled with the
    flag "g", so [test] starts at the [lastIndex] the call before left.
    In the example both lines of [a.md], "ba" and "a", match the pattern
    [a] when tested by a fresh matcher; tested after "ba", the line "a"
    does not, and the search reports line 1 of [a.md] only. *)
Theorem regex_search_misses_matching_line :
  exists m r,
    makeMatcher Demo.rt "a" true true = Returned m
    /\ fst (applyMatcher m "ba") = true
    /\ fst (applyMatcher m "a") = true
    /\ fst (applyMatcher (snd (applyMatcher m "ba")) "a") = false
    /\ searchAcrossRoots Demo.rt (Demo.api false)
         (SearchParams.make "a" (Some ["requirements"%string]) true true None) 50
       = Some (Returned r)
    /\ map (fun h => (SearchHit.file h, SearchHit.line h)) (SearchResult.hits r)
       = [("a.md", 1); ("sub/b.md", 1); ("sub/b.md", 2)]%string.
Proof.
  exists (RegexMatcher (RegExp.make (Demo.literalProgram "a" false) true 0)),
         (SearchResult.make
            [SearchHit.make "requirements" "a.md" 1 "ba";
             SearchHit.make "requirements" "sub/b.md" 1 "alpha";
             SearchHit.make "requirements" "sub/b.md" 2 "beta"] 4 2).
  repeat (split; [vm_compute; reflexivity|]). vm_compute. reflexivity.
Qed.

(** ** Selection of the roots *)

Lemma arrayIncludes_iff (l : list string) (x : string) :
  JS.arrayIncludes l x = true <-> In x l.
Proof.
  unfold JS.arrayIncludes. rewrite existsb_exists. split.
  - intros (y & Hy & He). apply String.eqb_eq in He. now subst.
  - intros H. exists x. split; trivial. apply String.eqb_refl.
Qed.

Lemma filter_none {A : Type} (f : A -> bool) (l : list A) :
  (forall x, In x l -> f x = false) -> filter f l = [].
Proof.
  induction l as [|a l IH]; intros H; simpl; trivial.
  rewrite (H a (or_introl eq_refl)). apply IH. intros x Hx. apply H. now right.
Qed.

Lemma selectRoots_listed ids roots :
  ids <> [] ->
  selectRoots (Some ids) roots
  = filter (fun r => JS.arrayIncludes ids (ResolvedRoot.id r)) roots.
Proof. destruct ids; [congruence|reflexivity]. Qed.

Lemma selectRoots_In ids roots r :
  ids <> [] ->
  In r (selectRoots (Some ids) roots) <-> In r roots /\ In (ResolvedRoot.id r) ids.
Proof.
  intros Hne. rewrite selectRoots_listed by trivial.
  rewrite filter_In, arrayIncludes_iff. tauto.
Qed.

Lemma searchRun_over_selected rt api params fuel cfg roots m :
  resolveRoots rt api = Returned (cfg, roots) ->
  makeMatcher rt (SearchParams.query params) (SearchParams.regex params)
    (SearchParams.caseSensitive params) = Returned m ->
  searchRun rt api params fuel
  = option_map Returned
      (searchRoots rt cfg (effectiveMaxHits (SearchParams.maxHits params) cfg) fuel
         (selectRoots (SearchParams.rootIds params) roots) (initialState m)).
Proof.
  intros Hres Hm. unfold searchRun. rewrite Hres, Hm.
  now destruct (searchRoots _ _ _ _ _ _).
Qed.

(** C9, as stated, fails: the empty list is a given list that holds no
    known id, and a search with it goes over all the roots and returns
    hits. *)
Lemma search_empty_rootIds_counterexample :
  exists r,
    searchAcrossRoots Demo.rt (Demo.api false) (Demo.search "alpha" (Some []) None) 50
    = Some (Returned r)
    /\ List.length (SearchResult.hits r) = 2
    /\ searchAcrossRoots Demo.rt (Demo.api false) (Demo.search "alpha" None None) 50
       = Some (Returned r).
Proof.
  exists (SearchResult.make
            [SearchHit.make "requirements" "sub/b.md" 1 "alpha";
             SearchHit.make "unity" "b.md" 1 "alpha"] 5 2).
  split; [vm_compute; reflexivity|]. split; vm_compute; reflexivity.
Qed.

(** C9, amended: a search with a [rootIds] list that is not empty goes
    over exactly the configured roots whose id is in the list, in their
    configured order: an id of the list that no configured root has changes
    nothing, every hit has the id of a configured root that is in the list,
    and a list none of whose ids is known gives no hit and no scanned file;
    a search with no list, or with the empty list, goes over all the
    configured roots. *)
Theorem search_restricted_to_listed_roots rt api params fuel cfg roots :
  resolveRoots rt api = Returned (cfg, roots) ->
  let selected := selectRoots (SearchParams.rootIds params) roots in
  (forall m,
      makeMatcher rt (SearchParams.query params) (SearchParams.regex params)
        (SearchParams.caseSensitive params) = Returned m ->
      searchRun rt api params fuel
      = option_map Returned
          (searchRoots rt cfg (effectiveMaxHits (SearchParams.maxHits params) cfg)
             fuel selected (initialState m)))
  /\ (forall ids,
         SearchParams.rootIds params = Some ids -> ids <> [] ->
         selected = filter (fun r => JS.arrayIncludes ids (ResolvedRoot.id r)) roots
         /\ (forall r, In r selected <-> In r roots /\ In (ResolvedRoot.id r) ids)
         /\ (forall ids',
                ids' <> [] ->
                (forall r, In r roots ->
                           (In (ResolvedRoot.id r) ids <-> In (ResolvedRoot.id r) ids')) ->
                selectRoots (Some ids') roots = selected)
         /\ (forall st h,
                searchRun rt api params fuel = Some (Returned st) ->
                In h (SearchState.hits st) ->
                In (SearchHit.rootId h) ids
                /\ exists r, In r roots /\ ResolvedRoot.id r = SearchHit.rootId h)
         /\ ((forall r, In r roots -> ~ In (ResolvedRoot.id r) ids) ->
             forall m,
               makeMatcher rt (SearchParams.query params) (SearchParams.regex params)
                 (SearchParams.caseSensitive params) = Returned m ->
               searchAcrossRoots rt api params fuel
               = Some (Returned (SearchResult.make [] 0 0))))
  /\ (SearchParams.rootIds params = None \/ SearchParams.rootIds params = Some [] ->
      selected = roots).
Proof.
  intros Hres selected. split; [|split].
  - intros m Hm. now apply searchRun_over_selected.
  - intros ids Hids Hne. unfold selected. rewrite Hids.
    split; [now apply selectRoots_listed|].
    split; [intros r; now apply selectRoots_In|].
    split; [|split].
    + intros ids' Hne' Hsame. rewrite !selectRoots_listed by trivial.
      apply filter_ext_in. intros r Hr. apply eq_true_iff_eq.
      rewrite !arrayIncludes_iff. symmetry. now apply Hsame.
    + intros st h Hrun Hin.
      destruct (hits_from_selected rt api params fuel cfg roots st h Hres Hrun Hin)
        as (root & Hsel & Hid).
      rewrite Hids in Hsel. apply selectRoots_In in Hsel; trivial.
      destruct Hsel as [Hr Hi]. rewrite Hid. split; trivial. now exists root.
    + intros Hnone m Hm.
      assert (Hsel : selectRoots (Some ids) roots = []).
      { rewrite selectRoots_listed by trivial. apply filter_none.
        intros r Hr. destruct (JS.arrayIncludes ids (ResolvedRoot.id r)) eqn:Hinc;
          trivial.
        apply arrayIncludes_iff in Hinc. now destruct (Hnone r Hr). }
      unfold searchAcrossRoots.
      rewrite (searchRun_over_selected rt api params fuel cfg roots m Hres Hm).
      rewrite Hids, Hsel. reflexivity.
  - intros [H|H]; unfold selected; now rewrite H.
Qed.

Lemma search_restricted_to_listed_roots_witness :
  exists cfg roots,
    resolveRoots Demo.rt (Demo.api false) = Returned (cfg, roots)
    /\ selectRoots (Some ["unity"; "nope"]%string) roots
       = filter (fun r => JS.arrayIncludes ["unity"; "nope"]%string (ResolvedRoot.id r))
           roots
    /\ selectRoots (Some ["unity"; "nope"]%string) roots
       = [ResolvedRoot.make "unity" None "/data/sub" true []].
Proof.
  pose (cfg := PluginCfg.make
            [RootCfg.make "requirements" "/data" None None;
             RootCfg.make "wwise" "/gone" None None;
             RootCfg.make "unity" "/data/sub" None None]
            (Num.ofZ 12) (Num.ofZ 50) false ["/.git/"%string] [".md"%string]).
  pose (roots := [ResolvedRoot.make "requirements" None "/data" true [];
                  ResolvedRoot.make "wwise" None "/gone" false [];
                  ResolvedRoot.make "unity" None "/data/sub" true []]).
  assert (Hres : resolveRoots Demo.rt (Demo.api false) = Returned (cfg, roots))
    by (vm_compute; reflexivity).
  destruct (search_restricted_to_listed_roots Demo.rt (Demo.api false)
              (Demo.search "alpha" (Some ["unity"; "nope"]%string) None) 50
              cfg roots Hres) as (_ & H & _).
  assert (Hne : ["unity"; "nope"]%string <> []) by discriminate.
  destruct (H _ eq_refl Hne) as (Hsel & _).
  exists cfg, roots. split; [exact Hres|]. split; [exact Hsel|].
  vm_compute. reflexivity.
Defined.

(** ** What every hit and every result satisfies *)

(** A path the walker yields passed the exclusion filter and the
    extension filter. *)
Lemma visitEntry_yield_filtered rt p rootReal d e f :
  visitEntry rt p rootReal d e = Yield f ->
  shouldExclude f (WalkParams.globalExclude p) (WalkParams.rootExclude p) = false
  /\ extOk f (WalkParams.includeExtensions p) = true.
Proof.
  unfold visitEntry.
  destruct (shouldExclude _ _ _) eqn:Hex; [discriminate|].
  assert (Hstat : forall isDir isFile,
             visitStat p (NodePath.join [d; Dirent.name e]) isDir isFile = Yield f ->
             f = NodePath.join [d; Dirent.name e]
             /\ extOk f (WalkParams.includeExtensions p) = true).
  { intros isDir isFile. unfold visitStat.
    destruct isDir; [discriminate|]. destruct isFile; [|discriminate].
    destruct (extOk _ _) eqn:Hext; simpl; [|discriminate].
    intros H. injection H as <-. now split. }
  destruct (Dirent.isSymbolicLink e).
  - destruct (negb (WalkParams.followSymlinks p)); [discriminate|].
    destruct (realpath (fs rt) _) as [real|]; [|discriminate].
    destruct (JS.isEmpty real || negb (isWithinRoot (cwd rt) rootReal real));
      [discriminate|].
    destruct (stat (fs rt) _) as [st|]; [|discriminate].
    intros H. destruct (Hstat _ _ H) as [-> Hext]. now split.
  - intros H. destruct (Hstat _ _ H) as [-> Hext]. now split.
Qed.

Lemma walkNext_yield_filtered rt p fuel : forall w f w',
  walkNext rt p fuel w = Some (Some (f, w')) ->
  shouldExclude f (WalkParams.globalExclude p) (WalkParams.rootExclude p) = false
  /\ extOk f (WalkParams.includeExtensions p) = true.
Proof.
  induction fuel as [|k IH]; intros w f w' H; simpl in H; [discriminate|].
  destruct (Walker.entries w) as [|ent rest].
  - destruct (Walker.stack w) as [|dir stack]; [discriminate|].
    destruct (JS.isEmpty dir); [eauto|].
    destruct (readdir (fs rt) dir); eauto.
  - destruct (visitEntry rt p (Walker.rootReal w) (Walker.dir w) ent) as [|full|full]
      eqn:Hv; eauto.
    injection H as <- <-. eapply visitEntry_yield_filtered; eauto.
Qed.

Lemma searchRoots_hits_filtered rt cfg maxHits fuel selected st st' :
  Forall (HitFrom rt selected (passesFilters cfg)) (SearchState.hits st) ->
  searchRoots rt cfg maxHits fuel selected st = Some st' ->
  Forall (HitFrom rt selected (passesFilters cfg)) (SearchState.hits st').
Proof.
  intros Hst H.
  destruct (searchRoots_invariant rt cfg maxHits selected
              (fun _ s => Forall (HitFrom rt selected (passesFilters cfg))
                            (SearchState.hits s))
              (passesFilters cfg) (fun _ _ => True))
    with (fuel := fuel) (l := selected) (st := st) (st' := st') as [b Hb]; trivial.
  - intros root k w f w' _ _ Hnext. split; trivial.
    exact (walkNext_yield_filtered rt (walkParams cfg root) k w f w' Hnext).
  - intros root f st0 Hin Hq Hp _. now apply scanFile_hits_from.
  - apply incl_refl.
Qed.

(** No hit comes from an excluded path or from a file whose extension is
    not allowed: every hit of a search was made from a path, under a
    selected root, that no exclusion pattern (global or of that root)
    matches and whose extension passes [extOk]. *)
Theorem hits_pass_filters rt api params fuel cfg roots st h :
  resolveRoots rt api = Returned (cfg, roots) ->
  searchRun rt api params fuel = Some (Returned st) ->
  In h (SearchState.hits st) ->
  exists root filePath,
    In root (selectRoots (SearchParams.rootIds params) roots)
    /\ SearchHit.rootId h = ResolvedRoot.id root
    /\ SearchHit.file h = hitFile rt root filePath
    /\ shouldExclude filePath (PluginCfg.exclude cfg) (ResolvedRoot.exclude root) = false
    /\ extOk filePath (PluginCfg.includeExtensions cfg) = true.
Proof.
  intros Hres Hrun Hin.
  destruct (searchRun_returned_inv _ _ _ _ _ _ _ Hres Hrun) as (m & _ & Hroots).
  pose proof (searchRoots_hits_filtered rt cfg _ fuel _ (initialState m) st
                (Forall_nil _) Hroots) as Hall.
  rewrite Forall_forall in Hall.
  destruct (Hall h Hin) as (root & f & Hsel & [Hex Hext] & Hid & Hfile).
  exists root, f. repeat (split; trivial).
Qed.

Lemma hits_pass_filters_witness :
  exists st h root filePath,
    searchRun Demo.rt (Demo.api false) (Demo.search "beta" None None) 50
    = Some (Returned st)
    /\ In h (SearchState.hits st)
    /\ SearchHit.rootId h = ResolvedRoot.id root
    /\ SearchHit.file h = hitFile Demo.rt root filePath
    /\ extOk filePath [".md"%string] = true.
Proof.
  pose (cfg := PluginCfg.make
            [RootCfg.make "requirements" "/data" None None;
             RootCfg.make "wwise" "/gone" None None;
             RootCfg.make "unity" "/data/sub" None None]
            (Num.ofZ 12) (Num.ofZ 50) false ["/.git/"%string] [".md"%string]).
  pose (roots := [ResolvedRoot.make "requirements" None "/data" true [];
                  ResolvedRoot.make "wwise" None "/gone" false [];
                  ResolvedRoot.make "unity" None "/data/sub" true []]).
  pose (h := SearchHit.make "unity" "b.md" 2 "beta").
  assert (Hres : resolveRoots Demo.rt (Demo.api false) = Returned (cfg, roots))
    by (vm_compute; reflexivity).
  destruct (searchRun Demo.rt (Demo.api false) (Demo.search "beta" None None) 50)
    as [[st|]|] eqn:Hrun;
    [|vm_compute in Hrun; discriminate Hrun|vm_compute in Hrun; discriminate Hrun].
  assert (Hin : In h (SearchState.hits st)).
  { vm_compute in Hrun. injection Hrun as <-. vm_compute. tauto. }
  destruct (hits_pass_filters Demo.rt (Demo.api false)
              (Demo.search "beta" None None) 50 cfg roots st h Hres Hrun Hin)
    as (root & filePath & _ & Hid & Hfile & _ & Hext).
  exists st, h, root, filePath.
  split; [reflexivity|]. split; [exact Hin|]. split; [exact Hid|].
  split; [exact Hfile|exact Hext].
Defined.

(** *** Shape of the hits and of the counters *)







(** ** Substring matching *)

Lemma makeMatcher_substring rt (query : string) (caseSensitive : bool) :
  makeMatcher rt query false caseSensitive
  = Returned (SubstringMatcher
                (if caseSensitive then query else JS.toLowerCase query) caseSensitive).
Proof. reflexivity. Qed.

Lemma applyMatcher_substring (query : string) (caseSensitive : bool) (line : string) :
  applyMatcher
    (SubstringMatcher (if caseSensitive then query else JS.toLowerCase query)
       caseSensitive) line
  = (lineMatches query caseSensitive line,
     SubstringMatcher (if caseSensitive then query else JS.toLowerCase query)
       caseSensitive).
Proof. unfold lineMatches. now destruct caseSensitive. Qed.

Lemma scanLines_substring rt root f maxHits (query : string) (caseSensitive : bool) :
  forall lines i st,
  SearchState.matcher st
  = SubstringMatcher (if caseSensitive then query else JS.toLowerCase query)
      caseSensitive ->
  let r := scanLines rt root f maxHits i lines st in
  SearchState.matcher (snd r)
  = SubstringMatcher (if caseSensitive then query else JS.toLowerCase query)
      caseSensitive
  /\ (fst r = false ->
      SearchState.hits (snd r)
      = SearchState.hits st ++ matchingHits rt root f query caseSensitive i lines)
  /\ exists n,
       SearchState.hits (snd r)
       = SearchState.hits st
         ++ firstn n (matchingHits rt root f query caseSensitive i lines).
Proof.
  induction lines as [|line rest IH]; intros i st Hm; simpl.
  - split; trivial. split.
    + intros _. now rewrite app_nil_r.
    + exists 0. now rewrite app_nil_r.
  - rewrite Hm, applyMatcher_substring.
    destruct (lineMatches query caseSensitive line); simpl.
    + destruct (Num.natGe _ maxHits) eqn:Hge; simpl.
      * split; trivial. split; [discriminate|]. now exists 1.
      * match goal with |- context [scanLines rt root f maxHits (S i) rest ?s] =>
          destruct (IH (S i) s eq_refl) as (H1 & H2 & n & H3) end.
        simpl in *. split; trivial. split.
        -- intros Hf. rewrite (H2 Hf). now rewrite <- app_assoc.
        -- exists (S n). rewrite H3. now rewrite <- app_assoc.
    + match goal with |- context [scanLines rt root f maxHits (S i) rest ?s] =>
        destruct (IH (S i) s eq_refl) as (H1 & H2 & n & H3) end.
      simpl in *. split; trivial. split; trivial. now exists n.
Qed.

(** In substring mode the matcher has no state: scanning the lines of a
    file leaves it as [makeMatcher] made it, whether a line matches depends
    on the line, the query and the case flag only, and the loop appends the
    hits of the matching lines in order, one per line, with line numbers
    from 1 and the text cut at 400 characters: all of them when the loop
    runs to its end, a leading part of them when the cap stops it. *)
Theorem substring_scan_hits_matching_lines rt root f maxHits query caseSensitive
  m lines st :
  makeMatcher rt query false caseSensitive = Returned m ->
  SearchState.matcher st = m ->
  let r := scanLines rt root f maxHits 0 lines st in
  SearchState.matcher (snd r) = m
  /\ (forall line, applyMatcher m line = (lineMatches query caseSensitive line, m))
  /\ (fst r = false ->
      SearchState.hits (snd r)
      = SearchState.hits st ++ matchingHits rt root f query caseSensitive 0 lines)
  /\ exists n,
       SearchState.hits (snd r)
       = SearchState.hits st
         ++ firstn n (matchingHits rt root f query caseSensitive 0 lines).
Proof.
  rewrite makeMatcher_substring. intros Hm Hst. injection Hm as <-.
  destruct (scanLines_substring rt root f maxHits query caseSensitive lines 0 st Hst)
    as (H1 & H2 & H3).
  cbv zeta. rewrite H1. split; trivial. split.
  - intros line. apply applyMatcher_substring.
  - split; trivial.
Qed.

Lemma substring_scan_hits_matching_lines_witness :
  SearchState.hits
    (snd (scanLines Demo.rt (ResolvedRoot.make "requirements" None "/data" true [])
            "/data/a.md" (Num.ofZ 50) 0 (JS.splitLines Demo.aText)
            (initialState (SubstringMatcher "a" false))))
  = [SearchHit.make "requirements" "a.md" 1 "ba";
     SearchHit.make "requirements" "a.md" 2 "a"].
Proof.
  destruct (substring_scan_hits_matching_lines Demo.rt
              (ResolvedRoot.make "requirements" None "/data" true [])
              "/data/a.md" (Num.ofZ 50) "A" false (SubstringMatcher "a" false)
              (JS.splitLines Demo.aText) (initialState (SubstringMatcher "a" false))
              eq_refl eq_refl) as (_ & _ & Hall & _).
  rewrite Hall; [|vm_compute; reflexivity]. vm_compute. reflexivity.
Defined.

(** ** What a direct read returns *)



(** ** Configuration defaults *)

Lemma positiveOr_cases (x : option number) (d : number) :
  (exists n, x = Some n /\ Num.gtZero n = true /\ positiveOr x d = n)
  \/ ((forall n, x = Some n -> Num.gtZero n = false) /\ positiveOr x d = d).
Proof.
  unfold positiveOr. destruct x as [n|].
  - destruct (Num.gtZero n) eqn:E.
    + left. now exists n.
    + right. split; trivial. intros n' H. now injection H as <-.
  - right. split; trivial. discriminate.
Qed.

Lemma trim_nonempty_nonempty s : JS.isEmpty (JS.trim s) = false -> s <> EmptyString.
Proof. intros H ->. discriminate. Qed.


(** Every configuration [getPluginCfg] returns has at least one root and
    positive limits: a limit that is absent, not a number, not positive or
    NaN is replaced by its default (2,000,000 bytes, 200 hits), a positive
    one is kept as it is; symbolic links are followed only when the option
    is the boolean true; and no allowed extension is blank. *)
Theorem getPluginCfg_limits api cfg :
  getPluginCfg api = Returned cfg ->
  let raw := match Api.pluginConfig api with Some r => r | None => RawCfg.none end in
  PluginCfg.roots cfg <> []
  /\ Num.gtZero (PluginCfg.maxFileBytes cfg) = true
  /\ Num.gtZero (PluginCfg.maxHits cfg) = true
  /\ ((exists n, RawCfg.maxFileBytes raw = Some n /\ Num.gtZero n = true
                 /\ PluginCfg.maxFileBytes cfg = n)
      \/ ((forall n, RawCfg.maxFileBytes raw = Some n -> Num.gtZero n = false)
          /\ PluginCfg.maxFileBytes cfg = Num.ofZ 2000000))
  /\ ((exists n, RawCfg.maxHits raw = Some n /\ Num.gtZero n = true
                 /\ PluginCfg.maxHits cfg = n)
      \/ ((forall n, RawCfg.maxHits raw = Some n -> Num.gtZero n = false)
          /\ PluginCfg.maxHits cfg = Num.ofZ 200))
  /\ (PluginCfg.followSymlinks cfg = true <-> RawCfg.followSymlinks raw = Some true)
  /\ (forall e, In e (PluginCfg.includeExtensions cfg) -> JS.trim e <> EmptyString).
Proof.
  intros H raw.
  destruct (getPluginCfg_limits_positive _ _ H) as [Hb Hh].
  unfold getPluginCfg in H. fold raw in H.
  destruct (match RawCfg.roots raw with Some l => keepObjects l | None => [] end)
    as [|c l] eqn:Hroots; simpl in H; [discriminate|].
  injection H as <-. cbn [PluginCfg.roots PluginCfg.maxFileBytes PluginCfg.maxHits
                          PluginCfg.followSymlinks PluginCfg.includeExtensions] in *.
  split; [discriminate|]. split; [exact Hb|]. split; [exact Hh|].
  split; [apply positiveOr_cases|]. split; [apply positiveOr_cases|].
  split.
  - destruct (RawCfg.followSymlinks raw) as [[|]|]; split; congruence.
  - intros e He. destruct (RawCfg.includeExtensions raw) as [exts|]; [|contradiction].
    apply filter_In in He. destruct He as [_ He].
    apply negb_true_iff in He. now apply isEmpty_false_iff.
Qed.

Lemma getPluginCfg_limits_witness :
  exists cfg,
    getPluginCfg (Api.make (Some (RawCfg.make (Some [Demo.root "r" "/data"])
                                    (Some (Num.ofZ 0)) (Some NaN) None None
                                    (Some [".md"; " "]%string)))
                    None) = Returned cfg
    /\ PluginCfg.maxFileBytes cfg = Num.ofZ 2000000
    /\ PluginCfg.maxHits cfg = Num.ofZ 200.
Proof.
  pose (api := Api.make (Some (RawCfg.make (Some [Demo.root "r" "/data"])
                                 (Some (Num.ofZ 0)) (Some NaN) None None
                                 (Some [".md"; " "]%string)))
                 None).
  destruct (getPluginCfg api) as [cfg|] eqn:Hcfg; [|vm_compute in Hcfg; discriminate Hcfg].
  destruct (getPluginCfg_limits api cfg Hcfg) as (_ & _ & _ & Hb & Hh & _).
  exists cfg. split; [exact Hcfg|]. split.
  - destruct Hb as [(n & Hn & Hpos & _)|[_ Hd]]; [|exact Hd].
    vm_compute in Hn. injection Hn as <-. vm_compute in Hpos. discriminate Hpos.
  - destruct Hh as [(n & Hn & Hpos & _)|[_ Hd]]; [|exact Hd].
    vm_compute in Hn. injection Hn as <-. vm_compute in Hpos. discriminate Hpos.
Defined.

(** ** Extension filter *)





(** ** Invalid regular expression *)

(** A search in regex mode whose pattern the engine refuses throws the
    engine's error, whatever the bound on the steps: no file is listed or
    read; a missing configuration is reported first. *)
Theorem regex_search_invalid_pattern_throws rt api params fuel cfg roots :
  resolveRoots rt api = Returned (cfg, roots) ->
  SearchParams.regex params = true ->
  regexpCompile rt (SearchParams.query params)
    (negb (SearchParams.caseSensitive params)) = None ->
  searchRun rt api params fuel = Some (Threw RegExpSyntaxError)
  /\ searchAcrossRoots rt api params fuel = Some (Threw RegExpSyntaxError).
Proof.
  intros Hres Hregex Hcompile.
  assert (H : searchRun rt api params fuel = Some (Threw RegExpSyntaxError)).
  { unfold searchRun, makeMatcher. now rewrite Hres, Hregex, Hcompile. }
  split; trivial. unfold searchAcrossRoots. now rewrite H.
Qed.

Lemma regex_search_invalid_pattern_throws_witness :
  searchAcrossRoots Demo.rt (Demo.api false)
    (SearchParams.make "a(" None true false None) 0
  = Some (Threw RegExpSyntaxError).
Proof.
  refine (proj2 (regex_search_invalid_pattern_throws Demo.rt (Demo.api false)
                   (SearchParams.make "a(" None true false None) 0 _ _ _ eq_refl _)).
  - vm_compute. reflexivity.
  - vm_compute. reflexivity.
Defined.

(** ** Resolved roots are absolute *)

Lemma isAbsolute_append a b :
  NodePath.isAbsolute a = true -> NodePath.isAbsolute (a ++ b)%string = true.
Proof. destruct a; simpl; trivial. discriminate. Qed.

Lemma normalize_absolute p :
  NodePath.isAbsolute p = true -> NodePath.isAbsolute (NodePath.normalize p) = true.
Proof.
  intros H. unfold NodePath.normalize.
  destruct p as [|c p]; [discriminate|]. cbn [JS.isEmpty]. rewrite H.
  destruct (JS.isEmpty _); reflexivity.
Qed.

Lemma join_absolute a b :
  NodePath.isAbsolute a = true -> NodePath.isAbsolute (NodePath.join [a; b]) = true.
Proof.
  intros H. unfold NodePath.join.
  destruct a as [|c a]; [discriminate|]. cbn [filter JS.isEmpty negb].
  destruct (negb (JS.isEmpty b)); apply normalize_absolute; simpl;
    destruct b; exact H.
Qed.

Lemma resolve_absolute cwd args :
  NodePath.isAbsolute cwd = true ->
  NodePath.isAbsolute (NodePath.resolve cwd args) = true.
Proof.
  intros H. unfold NodePath.resolve.
  destruct (NodePath.resolveFrom (rev args) EmptyString) as [r [|]]; [reflexivity|].
  destruct cwd as [|c cwd]; [discriminate|]. cbn [JS.isEmpty]. rewrite H.
  reflexivity.
Qed.

Lemma toAbsPath_absolute rt inputPath baseDir :
  NodePath.isAbsolute (cwd rt) = true ->
  NodePath.isAbsolute (toAbsPath rt inputPath baseDir) = true.
Proof.
  intros H. unfold toAbsPath.
  destruct (NodePath.isAbsolute (expandHome rt (JS.trim inputPath))) eqn:E.
  - now apply normalize_absolute.
  - apply normalize_absolute. now apply resolve_absolute.
Qed.

(** In a process whose working directory is an absolute path, the path of
    every resolved root is absolute, whatever the configured path, the
    workspace directory and the home directory are. *)
Theorem resolved_roots_absolute rt api cfg roots :
  NodePath.isAbsolute (cwd rt) = true ->
  resolveRoots rt api = Returned (cfg, roots) ->
  forall r, In r roots -> NodePath.isAbsolute (ResolvedRoot.path r) = true.
Proof.
  intros Hcwd Hres r Hin.
  destruct (resolveRoots_inv _ _ _ _ Hres) as [_ ->].
  apply in_map_iff in Hin. destruct Hin as (c & <- & _).
  simpl. now apply toAbsPath_absolute.
Qed.

Lemma resolved_roots_absolute_witness :
  exists cfg roots,
    resolveRoots Demo.rt
      (Api.make (Some (RawCfg.make (Some [Demo.root "r" " ~/x/../y "; Demo.root "s" "rel"])
                         None None None None None))
         (Some "ws"%string)) = Returned (cfg, roots)
    /\ map ResolvedRoot.path roots = ["/home/u/y"; "/work/ws/rel"]%string
    /\ forall r, In r roots -> NodePath.isAbsolute (ResolvedRoot.path r) = true.
Proof.
  pose (api := Api.make
                 (Some (RawCfg.make (Some [Demo.root "r" " ~/x/../y "; Demo.root "s" "rel"])
                          None None None None None))
                 (Some "ws"%string)).
  destruct (resolveRoots Demo.rt api) as [[cfg roots]|] eqn:Hres;
    [|vm_compute in Hres; discriminate Hres].
  exists cfg, roots. split; [exact Hres|]. split.
  - vm_compute in Hres. injection Hres as <- <-. vm_compute. reflexivity.
  - apply (resolved_roots_absolute Demo.rt api cfg roots); [reflexivity|exact Hres].
Defined.

(** ** Termination *)

(** More steps allowed, same outcome. *)
Lemma walkNext_more rt p : forall k k' w x,
  walkNext rt p k w = Some x -> k <= k' -> walkNext rt p k' w = Some x.
Proof.
  induction k as [|k IH]; intros k' w x H Hle; simpl in H; [discriminate|].
  destruct k' as [|k']; [lia|]. simpl.
  assert (Hk : k <= k') by lia.
  destruct (Walker.entries w) as [|ent rest].
  - destruct (Walker.stack w) as [|dir stack]; trivial.
    destruct (JS.isEmpty dir); [eauto|].
    destruct (readdir (fs rt) dir); eauto.
  - destruct (visitEntry rt p (Walker.rootReal w) (Walker.dir w) ent); eauto.
Qed.

Lemma searchFiles_more rt cfg root maxHits : forall k k' w st x,
  searchFiles rt cfg root maxHits k w st = Some x -> k <= k' ->
  searchFiles rt cfg root maxHits k' w st = Some x.
Proof.
  induction k as [|k IH]; intros k' w st x H Hle; simpl in H; [discriminate|].
  destruct k' as [|k']; [lia|]. simpl.
  assert (Hk : k <= k') by lia.
  destruct (walkNext rt (walkParams cfg root) k w) as [y|] eqn:Hn; [|discriminate].
  rewrite (walkNext_more _ _ _ _ _ _ Hn Hk).
  destruct y as [[f w']|]; trivial.
  destruct (Num.natGe _ maxHits); trivial.
  destruct (scanFile rt cfg root maxHits f st) as [[|] st']; trivial.
  eauto.
Qed.

Lemma searchRoots_more rt cfg maxHits k k' : forall selected st x,
  searchRoots rt cfg maxHits k selected st = Some x -> k <= k' ->
  searchRoots rt cfg maxHits k' selected st = Some x.
Proof.
  induction selected as [|root rest IH]; intros st x H Hle; simpl in *; trivial.
  destruct (negb (ResolvedRoot.exists_ root)); [eauto|].
  destruct (searchFiles rt cfg root maxHits k _ st) as [y|] eqn:Hf; [|discriminate].
  rewrite (searchFiles_more _ _ _ _ _ _ _ _ _ Hf Hle).
  destruct y as [[|] st']; eauto.
Qed.

Lemma searchRun_more rt api params k k' x :
  searchRun rt api params k = Some x -> k <= k' ->
  searchRun rt api params k' = Some x.
Proof.
  unfold searchRun. intros H Hle.
  destruct (resolveRoots rt api) as [[cfg roots]|e]; trivial.
  destruct (makeMatcher _ _ _ _) as [m|e]; trivial.
  destruct (searchRoots rt cfg _ k _ _) as [st|] eqn:Hr; [|discriminate].
  now rewrite (searchRoots_more _ _ _ _ _ _ _ _ Hr Hle).
Qed.

Lemma list_sum_map_le {A : Type} (f g : A -> nat) (l : list A) :
  (forall x, In x l -> f x <= g x) ->
  list_sum (map f l) <= list_sum (map g l).
Proof.
  induction l as [|x l IH]; intros H; simpl; [lia|].
  pose proof (H x (or_introl eq_refl)).
  assert (list_sum (map f l) <= list_sum (map g l)).
  { apply IH. intros y Hy. apply H. now right. }
  lia.
Qed.

Lemma entryCost_le rt p rr (sub sub' : string -> nat) d e :
  (forall full, visitEntry rt p rr d e = Push full -> sub full <= sub' full) ->
  entryCost rt p rr sub d e <= entryCost rt p rr sub' d e.
Proof.
  intros H. unfold entryCost.
  destruct (visitEntry rt p rr d e) as [|full|full]; try lia.
  apply le_n_S. now apply H.
Qed.

Lemma walkCost_unfold rt p rr n d :
  walkCost rt p rr n d
  = S (match readdir (fs rt) d with
       | None => 0
       | Some es =>
           list_sum
             (map (entryCost rt p rr
                     (match n with
                      | O => fun _ => 0
                      | S n' => walkCost rt p rr n'
                      end) d) es)
       end).
Proof. destruct n; reflexivity. Qed.

Lemma walkCost_mono rt p rr : forall n m d,
  n <= m -> walkCost rt p rr n d <= walkCost rt p rr m d.
Proof.
  induction n as [|n IH]; intros m d Hle; rewrite (walkCost_unfold _ _ _ _ d),
    (walkCost_unfold _ _ _ m d);
    destruct (readdir (fs rt) d) as [es|]; try lia; apply le_n_S;
    apply list_sum_map_le; intros e _; apply entryCost_le; intros full _.
  - lia.
  - destruct m as [|m]; [lia|]. apply IH. lia.
Qed.

Section WalkTerminates.

Variables (rt : Runtime) (p : WalkParams.t) (rr : string) (depth : string -> nat).
Hypothesis descends : Descends rt p rr depth.

Let cost := fun d => walkCost rt p rr (depth d) d.

(** Listing a directory costs its entries no more than the directory
    cost on the stack. *)
Lemma cost_listed d es :
  readdir (fs rt) d = Some es ->
  S (list_sum (map (entryCost rt p rr cost d) es)) <= cost d.
Proof.
  intros Hrd. unfold cost at 2. rewrite walkCost_unfold, Hrd. apply le_n_S.
  apply list_sum_map_le. intros e Hin. apply entryCost_le. intros full Hv.
  pose proof (descends d es e full Hrd Hin Hv) as Hlt.
  destruct (depth d) as [|n]; [lia|].
  unfold cost. apply walkCost_mono. lia.
Qed.

Lemma cost_positive d : 1 <= cost d.
Proof. unfold cost. rewrite walkCost_unfold. lia. Qed.

Lemma list_sum_cons_eq (x : nat) (l : list nat) : list_sum (x :: l) = x + list_sum l.
Proof. reflexivity. Qed.

Lemma walkerCost_make stack dir entries :
  walkerCost rt p depth (Walker.make rr stack dir entries)
  = list_sum (map cost stack)
    + list_sum (map (entryCost rt p rr cost dir) entries).
Proof. reflexivity. Qed.

Ltac cost_norm :=
  rewrite !walkerCost_make; cbn [map]; rewrite ?list_sum_cons_eq;
  change (list_sum (@nil nat)) with 0.

(** With more steps allowed than the cost of the walker, [next()]
    finishes, and the walker left after a [yield] costs less. *)
Lemma walkNext_terminates : forall fuel w,
  Walker.rootReal w = rr ->
  walkerCost rt p depth w < fuel ->
  exists x,
    walkNext rt p fuel w = Some x
    /\ match x with
       | Some (_, w') =>
           Walker.rootReal w' = rr
           /\ walkerCost rt p depth w' < walkerCost rt p depth w
       | None => True
       end.
Proof.
  induction fuel as [|k IH]; intros w Hrr Hc; [lia|].
  destruct w as [wrr stack dir entries]. simpl in Hrr. subst wrr.
  rewrite walkerCost_make in Hc.
  cbn [walkNext Walker.entries Walker.stack Walker.dir Walker.rootReal].
  assert (Hstep : forall w1,
             Walker.rootReal w1 = rr ->
             walkerCost rt p depth w1
             < walkerCost rt p depth (Walker.make rr stack dir entries) ->
             exists x,
               walkNext rt p k w1 = Some x
               /\ match x with
                  | Some (_, w') =>
                      Walker.rootReal w' = rr
                      /\ walkerCost rt p depth w'
                         < walkerCost rt p depth (Walker.make rr stack dir entries)
                  | None => True
                  end).
  { intros w1 Hr1 Hlt. rewrite walkerCost_make in Hlt |- *.
    destruct (IH w1 Hr1) as (x & Hx & Hm); [lia|].
    exists x. split; trivial. destruct x as [[f w']|]; trivial.
    destruct Hm as [Hr Hl]. split; trivial. lia. }
  destruct entries as [|ent rest].
  - destruct stack as [|d stack]; [now exists None|].
    pose proof (cost_positive d) as Hpos.
    assert (Hdrop : exists x,
               walkNext rt p k (Walker.make rr stack dir []) = Some x
               /\ match x with
                  | Some (_, w') =>
                      Walker.rootReal w' = rr
                      /\ walkerCost rt p depth w'
                         < walkerCost rt p depth (Walker.make rr (d :: stack) dir [])
                  | None => True
                  end).
    { apply Hstep; trivial. cost_norm. lia. }
    destruct (JS.isEmpty d); [exact Hdrop|].
    destruct (readdir (fs rt) d) as [es|] eqn:Hrd; [|exact Hdrop].
    pose proof (cost_listed d es Hrd) as Hl.
    apply Hstep; trivial. cost_norm. lia.
  - assert (Hent : entryCost rt p rr cost dir ent
                   = S (match visitEntry rt p rr dir ent with
                        | Push full => cost full
                        | _ => 0
                        end)) by reflexivity.
    destruct (visitEntry rt p rr dir ent) as [|full|full] eqn:Hv.
    + apply Hstep; trivial. cost_norm. rewrite Hent. lia.
    + apply Hstep; trivial. cost_norm. rewrite Hent. lia.
    + eexists. split; [reflexivity|]. split; [reflexivity|].
      cost_norm. rewrite Hent. lia.
Qed.

End WalkTerminates.

Lemma searchFiles_terminates rt cfg root maxHits depth :
  Descends rt (walkParams cfg root) (realOrSelf rt (ResolvedRoot.path root)) depth ->
  forall fuel w st,
    Walker.rootReal w = realOrSelf rt (ResolvedRoot.path root) ->
    S (walkerCost rt (walkParams cfg root) depth w) < fuel ->
    exists x, searchFiles rt cfg root maxHits fuel w st = Some x.
Proof.
  intros Hd. induction fuel as [|k IH]; intros w st Hrr Hc; [lia|].
  simpl.
  destruct (walkNext_terminates rt (walkParams cfg root) _ depth Hd k w Hrr)
    as (x & Hx & Hm); [lia|].
  rewrite Hx. destruct x as [[f w']|]; [|eauto].
  destruct Hm as [Hr Hlt].
  destruct (Num.natGe _ maxHits); [eauto|].
  destruct (scanFile rt cfg root maxHits f st) as [[|] st']; [eauto|].
  apply IH; trivial. lia.
Qed.

Lemma searchRoots_terminates rt cfg maxHits : forall selected,
  (forall root, In root selected -> ResolvedRoot.exists_ root = true ->
     exists depth,
       Descends rt (walkParams cfg root) (realOrSelf rt (ResolvedRoot.path root)) depth) ->
  exists fuel0, forall fuel st,
    fuel0 <= fuel -> exists x, searchRoots rt cfg maxHits fuel selected st = Some x.
Proof.
  induction selected as [|root rest IH]; intros Hall.
  - exists 0. intros fuel st _. simpl. eauto.
  - destruct IH as [f1 H1]. { intros r Hr. apply Hall. now right. }
    destruct (ResolvedRoot.exists_ root) eqn:Hex.
    + destruct (Hall root (or_introl eq_refl) Hex) as [depth Hd].
      exists (Nat.max f1
                (S (S (walkerCost rt (walkParams cfg root) depth
                         (walkFiles rt (walkParams cfg root)))))).
      intros fuel st Hle. simpl. rewrite Hex. simpl.
      destruct (searchFiles_terminates rt cfg root maxHits depth Hd fuel
                  (walkFiles rt (walkParams cfg root)) st eq_refl) as [[b st'] Hx];
        [lia|].
      rewrite Hx. destruct b; [eauto|]. apply H1. lia.
    + exists f1. intros fuel st Hle. simpl. rewrite Hex. simpl. now apply H1.
Qed.

(** A search returns when the walk of each selected root that exists
    descends a finite tree: some bound on the steps is enough, and every
    larger bound gives the same outcome. Without a configuration, or with a
    pattern the engine refuses, no step is needed. *)
Theorem search_terminates rt api params :
  (forall cfg roots root,
      resolveRoots rt api = Returned (cfg, roots) ->
      In root (selectRoots (SearchParams.rootIds params) roots) ->
      ResolvedRoot.exists_ root = true ->
      exists depth,
        Descends rt (walkParams cfg root) (realOrSelf rt (ResolvedRoot.path root)) depth) ->
  exists fuel0 outcome,
    forall fuel, fuel0 <= fuel -> searchAcrossRoots rt api params fuel = Some outcome.
Proof.
  intros Hall.
  assert (Hrun : exists fuel0 x, searchRun rt api params fuel0 = Some x).
  { unfold searchRun.
    destruct (resolveRoots rt api) as [[cfg roots]|e] eqn:Hres; [|exists 0; eauto].
    destruct (makeMatcher _ _ _ _) as [m|e]; [|exists 0; eauto].
    destruct (searchRoots_terminates rt cfg
                (effectiveMaxHits (SearchParams.maxHits params) cfg)
                (selectRoots (SearchParams.rootIds params) roots)) as [f0 H0].
    { intros root Hin Hex. eapply Hall; eauto. }
    destruct (H0 f0 (initialState m) (le_n _)) as [st Hst].
    exists f0. rewrite Hst. eauto. }
  destruct Hrun as (fuel0 & x & Hx).
  exists fuel0,
    (match x with Returned st => Returned (SearchState.result st) | Threw e => Threw e end).
  intros fuel Hle. unfold searchAcrossRoots.
  rewrite (searchRun_more _ _ _ _ _ _ Hx Hle). now destruct x.
Qed.

Lemma demo_descends p :
  Descends Demo.rt p (realOrSelf Demo.rt (WalkParams.rootDir p)) demoDepth.
Proof.
  intros d es e full Hrd Hin Hv.
  pose proof (visitEntry_checked Demo.rt p d e) as Hc.
  rewrite Hv in Hc. destruct Hc as [-> _].
  destruct (demo_dirs_inv _ _ Hrd) as [[-> ->]|[-> ->]];
    simpl in Hin; repeat (destruct Hin as [<-|Hin]); try contradiction;
    vm_compute; lia.
Qed.

Lemma search_terminates_witness :
  exists fuel0 outcome,
    forall fuel, fuel0 <= fuel ->
      searchAcrossRoots Demo.rt (Demo.api true) (Demo.search "a" None None) fuel
      = Some outcome.
Proof.
  apply (search_terminates Demo.rt (Demo.api true) (Demo.search "a" None None)).
  intros cfg roots root _ _ _. exists demoDepth.
  apply (demo_descends (walkParams cfg root)).
Defined.

(** ** The tool that lists the roots *)

